(** * PGL quick-start tutorial: a shallow embedding of [tutorials/quick_start.ipynb]

    The notebook builds a ten-node graph, defines a GCN classifier on top of
    the library operator [pgl.nn.GCNConv] and trains it for thirty epochs.
    Everything numerical happens inside numpy, Paddle and PGL.  The embedding
    therefore keeps the notebook's own code as programs over a signature of
    library calls ([LibOp]); a library implementation is a handler that gives
    each call a meaning on an abstract library state ([World]). *)

From stdpp Require Import gmap strings list pretty.
From Stdlib Require QArith.

Open Scope Z_scope.

(** ** The external libraries as an interface *)

(** The value and object types that numpy, Paddle and PGL own. *)
Class LibTypes : Type := {
  F : Type;                 (* floating-point scalars *)
  World : Type;             (* mutable library state: generators, parameters,
                               gradients, optimizer moments, console *)
  LibExn : Type;            (* exceptions raised inside a library *)
  GCNConv : Type;           (* pgl.nn.GCNConv objects *)
  Linear : Type;            (* paddle.nn.Linear objects *)
  CrossEntropyLoss : Type;  (* paddle.nn.loss.CrossEntropyLoss objects *)
  Adam : Type;              (* paddle.optimizer.Adam objects *)
  ParamT : Type;            (* trainable parameters, shared by reference *)
  fmt_4f : F → string       (* Python's "%.4f" on a float *)
}.

Section Data.
Context `{LibTypes}.

Inductive Scalar : Type :=
| SInt (z : Z)
| SFloat (x : F).

(** A numpy array: element type, shape and row-major contents. *)
Record ndarray : Type := mk_ndarray {
  dtype : string;
  shape : list Z;
  data : list Scalar
}.

(** A Paddle tensor, seen from the notebook: the same three attributes. *)
Record Tensor : Type := mk_Tensor {
  t_dtype : string;
  t_shape : list Z;
  t_data : list Scalar
}.

End Data.

(** Modelled from the spec: [pgl.Graph], whose class is not part of the
    fragment.  The spec describes it as the object that "packages an edge
    list and per-node/per-edge feature arrays"; the record keeps exactly the
    four constructor arguments the notebook passes.  [T] is the feature
    representation: [ndarray] after [build_graph], [Tensor] after
    [g.tensor()]. *)
Record Graph (T : Type) : Type := mk_Graph {
  edges : list (Z * Z);
  num_nodes : Z;
  node_feat : gmap string T;
  edge_feat : gmap string T
}.
Arguments mk_Graph {T} _ _ _ _.
Arguments edges {T} _.
Arguments num_nodes {T} _.
Arguments node_feat {T} _.
Arguments edge_feat {T} _.

(** Modelled from the spec: the [num_edges] property of [pgl.Graph], the
    number of entries of the packaged edge list. *)
Definition num_edges {T : Type} (g : Graph T) : Z := Z.of_nat (length (edges g)).

Section Programs.
Context `{LibTypes}.

(** The object built by [GCN.__init__]: its attributes.  [nn.LayerList] is a
    list container and is kept as a list. *)
Record GCN : Type := mk_GCN {
  num_class : Z;
  num_layers : Z;
  hidden_size : Z;
  gcns : list GCNConv;
  output : Linear
}.

(** Every call the notebook makes into numpy, Paddle or PGL, with the
    arguments as the notebook passes them; the index is the type of the
    value the call returns. *)
Inductive LibOp : Type → Type :=
| np_random_randn (dims : list Z) : LibOp ndarray
| np_astype (a : ndarray) (dt : string) : LibOp ndarray
| np_array (l : list Z) (dt : string) : LibOp ndarray
| np_getitem (a : ndarray) (i : Z) : LibOp Scalar
| Graph_tensor (g : Graph ndarray) : LibOp (Graph Tensor)
| GCNConv_new (input_size output_size : Z) (activation : string) (norm : bool) :
    LibOp GCNConv
| GCNConv_call (m : GCNConv) (graph : Graph Tensor) (feature : Tensor) :
    LibOp Tensor
| Linear_new (in_features out_features : Z) : LibOp Linear
| Linear_call (l : Linear) (x : Tensor) : LibOp Tensor
| to_tensor (l : list Z) : LibOp Tensor
| CrossEntropyLoss_new : LibOp CrossEntropyLoss
| CrossEntropyLoss_call (c : CrossEntropyLoss) (input label : Tensor) :
    LibOp Tensor
| Layer_parameters (self : GCN) : LibOp (list ParamT)
| Layer_train (self : GCN) : LibOp unit
| Adam_new (learning_rate : QArith_base.Q) (parameters : list ParamT) : LibOp Adam
| Tensor_backward (t : Tensor) : LibOp unit
| Adam_step (o : Adam) : LibOp unit
| Adam_clear_grad (o : Adam) : LibOp unit
| Tensor_numpy (t : Tensor) : LibOp ndarray
| print (s : string) : LibOp unit.

(** An exception seen by the notebook: Python's own [KeyError] from a dict
    subscript, or whatever a library raised. *)
Inductive Exn : Type :=
| KeyError (key : string)
| LibraryError (e : LibExn).

(** Notebook code: return a value, fail a dict subscript, or call a library
    and continue with what it returned. *)
Inductive Prog (A : Type) : Type :=
| Ret (a : A)
| Raise (e : Exn)
| Call {X : Type} (op : LibOp X) (k : X → Prog A).
Arguments Ret {A} _.
Arguments Raise {A} _.
Arguments Call {A X} _ _.

Fixpoint bind {A B : Type} (p : Prog A) (f : A → Prog B) : Prog B :=
  match p with
  | Ret a => f a
  | Raise e => Raise e
  | Call op k => Call op (λ x, bind (k x) f)
  end.

#[export] Instance Prog_ret : MRet Prog := @Ret.
#[export] Instance Prog_bind : MBind Prog := λ A B f p, bind p f.

Definition call {X : Type} (op : LibOp X) : Prog X := Call op Ret.

(** [d[key]] on a Python dict. *)
Definition getitem {T : Type} (d : gmap string T) (key : string) : Prog T :=
  match d !! key with
  | Some v => Ret v
  | None => Raise (KeyError key)
  end.

(** [for x in xs: s = body(x, s)], with [s] the variables the body assigns. *)
Fixpoint for_in {A S : Type} (xs : list A) (body : A → S → Prog S) (s : S) : Prog S :=
  match xs with
  | [] => Ret s
  | x :: xs' => s' ← body x s; for_in xs' body s'
  end.

(** [range(n)]: empty when [n <= 0]. *)
Definition range (n : Z) : list Z := seqZ 0 n.

(** [len(l)]. *)
Definition len {A : Type} (l : list A) : Z := Z.of_nat (length l).

End Programs.

Arguments Ret {_ A} _.
Arguments Raise {_ A} _.
Arguments Call {_ A X} _ _.

(** ** The notebook *)

Section Notebook.
Context `{LibTypes}.

(** *** Step 1: [build_graph] *)

Definition num_node : Z := 10.

Definition edge_list : list (Z * Z) :=
  [(2, 0); (2, 1); (3, 1); (4, 0); (5, 0);
   (6, 0); (6, 4); (6, 5); (7, 0); (7, 1);
   (7, 2); (7, 3); (8, 0); (9, 7)].

Definition d : Z := 16.

(** Both endpoints of an edge are node indices of a graph with [n] nodes. *)
Definition valid_edge (n : Z) (e : Z * Z) : Prop :=
  (0 ≤ e.1 < n) ∧ (0 ≤ e.2 < n).

(** [build_graph()].  [pgl.Graph(...)] is the record constructor [mk_Graph]
    and is not among the calls of [LibOp]: the trace of a run lists the four
    numpy calls. *)
Definition build_graph : Prog (Graph ndarray) :=
  r ← call (np_random_randn [num_node; d]);
  feature ← call (np_astype r "float32");
  r' ← call (np_random_randn [len edge_list; 1]);
  edge_feature ← call (np_astype r' "float32");
  let g := mk_Graph edge_list num_node
             {[ "nfeat" := feature ]} {[ "efeat" := edge_feature ]} in
  Ret g.

(** The cell that reports the sizes of the graph. *)
Definition print_graph_info (g : Graph ndarray) : Prog unit :=
  call (print ("There are " +:+ pretty (num_nodes g) +:+ " nodes in the graph."));;
  call (print ("There are " +:+ pretty (num_edges g) +:+ " edges in the graph.")).

(** *** Step 2: the class [GCN] *)

(** [GCN.__init__(self, input_size, num_class, num_layers=2, hidden_size=16)];
    an omitted keyword argument is [None] and takes its default.  The
    bookkeeping of the layer container ([super().__init__()],
    [nn.LayerList()], [append]) is kept as the list itself, see [GCN]: it is
    not among the calls of [LibOp], and the trace of a run lists the layer
    constructors only. *)
Definition GCN_init (input_size num_class : Z) (num_layers hidden_size : option Z) :
    Prog GCN :=
  let num_layers := default 2 num_layers in
  let hidden_size := default 16 hidden_size in
  gcns ← for_in (range num_layers) (λ i gcns,
            if decide (i = 0) then
              m ← call (GCNConv_new input_size hidden_size "relu" true);
              Ret (gcns ++ [m])
            else
              m ← call (GCNConv_new hidden_size hidden_size "relu" true);
              Ret (gcns ++ [m])) [];
  output ← call (Linear_new hidden_size num_class);
  Ret (mk_GCN num_class num_layers hidden_size gcns output).

(** [GCN.forward(self, graph, feature)]. *)
Definition GCN_forward (self : GCN) (graph : Graph Tensor) (feature : Tensor) :
    Prog Tensor :=
  feature ← for_in (gcns self) (λ m feature, call (GCNConv_call m graph feature)) feature;
  logits ← call (Linear_call (output self) feature);
  Ret logits.

(** *** Step 3: labels *)

Definition y_list : list Z := [0; 1; 1; 1; 0; 0; 0; 1; 0; 1].

(** *** Step 4: training *)

(** The notebook's global names that the training cells read or assign. *)
Record Globals : Type := mk_Globals {
  nb_g : Graph Tensor;
  nb_y : Tensor;
  nb_label : ndarray;
  nb_gcn : GCN;
  nb_criterion : CrossEntropyLoss;
  nb_optim : Adam;
  nb_epoch : option Z;
  nb_logits : option Tensor;
  nb_loss : option Tensor
}.

(** The cell that moves the data to tensors and creates model, loss and
    optimizer. *)
Definition training_setup (g : Graph ndarray) (y : list Z) (label : ndarray) :
    Prog Globals :=
  g ← call (Graph_tensor g);
  y ← call (to_tensor y);
  gcn ← GCN_init 16 2 None None;
  criterion ← call CrossEntropyLoss_new;
  parameters ← call (Layer_parameters gcn);
  optim ← call (Adam_new (QArith_base.Qmake 1 100) parameters);
  Ret (mk_Globals g y label gcn criterion optim None None None).

Definition format_4f (v : Scalar) : string :=
  match v with
  | SInt z => pretty z +:+ ".0000"
  | SFloat x => fmt_4f x
  end.

(** One pass through the body of [for epoch in range(30)]. *)
Definition train_epoch (epoch : Z) (ns : Globals) : Prog Globals :=
  feature ← getitem (node_feat (nb_g ns)) "nfeat";
  logits ← GCN_forward (nb_gcn ns) (nb_g ns) feature;
  loss ← call (CrossEntropyLoss_call (nb_criterion ns) logits (nb_y ns));
  call (Tensor_backward loss);;
  call (Adam_step (nb_optim ns));;
  call (Adam_clear_grad (nb_optim ns));;
  a ← call (Tensor_numpy loss);
  v ← call (np_getitem a 0);
  call (print ("epoch: " +:+ pretty epoch +:+ " | loss: " +:+ format_4f v));;
  Ret (mk_Globals (nb_g ns) (nb_y ns) (nb_label ns) (nb_gcn ns)
         (nb_criterion ns) (nb_optim ns) (Some epoch) (Some logits) (Some loss)).

(** The training cell. *)
Definition training_loop (ns : Globals) : Prog Globals :=
  call (Layer_train (nb_gcn ns));;
  for_in (range 30) train_epoch ns.

(** The cells before the training cell. *)
Definition prepare : Prog Globals :=
  g ← build_graph;
  print_graph_info g;;
  let y := y_list in
  label ← call (np_array y "float32");
  training_setup g y label.

(** The notebook, cell after cell. *)
Definition notebook : Prog Globals :=
  ns ← prepare;
  training_loop ns.

End Notebook.

(** ** Running notebook code against a library *)

(** A library implementation: what each call returns, or raises, and how it
    changes the library state. *)
Class Library `{LibTypes} : Type := {
  handle : ∀ X : Type, LibOp X → World → (LibExn + X) * World
}.
Arguments handle {_ _ X} _ _.

Section Semantics.
Context `{Library}.

(** A library call that was made, with its arguments. *)
Definition Event : Type := { X : Type & LibOp X }.
Definition event {X : Type} (op : LibOp X) : Event := existT X op.

(** [run p w]: the result (value or exception), the final library state and
    the calls made, in order.  A raising call ends the run: the notebook has
    no [try]. *)
Fixpoint run {A : Type} (p : Prog A) (w : World) : (Exn + A) * World * list Event :=
  match p with
  | Ret a => (inr a, w, [])
  | Raise e => (inl e, w, [])
  | Call op k =>
      match handle op w with
      | (inl e, w') => (inl (LibraryError e), w', [event op])
      | (inr x, w') =>
          let '(r, w'', t) := run (k x) w' in (r, w'', event op :: t)
      end
  end.

(** The state transformer a program denotes, without the log of calls. *)
Definition den {A : Type} (p : Prog A) (w : World) : (Exn + A) * World :=
  (run p w).1.

(** Sequencing of state transformers with exceptions. *)
Definition seqD {A B : Type} (m : World → (Exn + A) * World)
    (f : A → World → (Exn + B) * World) (w : World) : (Exn + B) * World :=
  match m w with
  | (inl e, w') => (inl e, w')
  | (inr a, w') => f a w'
  end.

Definition retD {A : Type} (a : A) (w : World) : (Exn + A) * World := (inr a, w).

(** The meaning of one library operator applied to its arguments. *)
Definition opD {X : Type} (op : LibOp X) (w : World) : (Exn + X) * World :=
  match handle op w with
  | (inl e, w') => (inl (LibraryError e), w')
  | (inr x, w') => (inr x, w')
  end.

(** Two programs with the same runs. *)
Definition same_runs {A : Type} (p q : Prog A) : Prop := ∀ w, run p w = run q w.

(** Programs that contain no [Raise]: every node is a library call. *)
Inductive only_calls {A : Type} : Prog A → Prop :=
| only_calls_Ret a : only_calls (Ret a)
| only_calls_Call X (op : LibOp X) k :
    (∀ x, only_calls (k x)) → only_calls (Call op k).

(** [p] fails only where a library raised: a failed run ended with a
    library call that raised, the exception is that call's, and the library
    state is as that call left it. *)
Definition library_failure (e : Exn) (w' : World) (t : list Event) : Prop :=
  ∃ (X : Type) (op : LibOp X) (w : World) (le : LibExn) (t0 : list Event),
    handle op w = (inl le, w') ∧ e = LibraryError le ∧ t = t0 ++ [event op].

Definition fails_only_in_library {A : Type} (p : Prog A) (R : A → Prop) : Prop :=
  ∀ w r w' t, run p w = (r, w', t) →
    match r with
    | inl e => library_failure e w' t
    | inr a => R a
    end.

(** Every call [p] makes satisfies [Q], whether the run completes or not,
    and a value it returns satisfies [R]. *)
Definition guarantees {A : Type} (p : Prog A) (Q : Event → Prop) (R : A → Prop) : Prop :=
  ∀ w r w' t, run p w = (r, w', t) → Forall Q t ∧ ∀ a, r = inr a → R a.

(** Layers as some constructor call returned them. *)
Definition built_conv (o : Z) (m : GCNConv) : Prop :=
  ∃ i act nm w w', handle (GCNConv_new i o act nm) w = (inr m, w').

Definition built_linear (o : Z) (l : Linear) : Prop :=
  ∃ i w w', handle (Linear_new i o) w = (inr l, w').

(** What node classification over the ten-node graph asks of the calls of
    the training loop: layers run on the ten-node graph and on features of
    shape (10, 16); the loss gets logits of shape (10, 2) and the label
    tensor made from [y_list], one class per node. *)
Definition node_classification_call (ev : Event) : Prop :=
  match projT2 ev with
  | GCNConv_call _ g x => num_nodes g = 10 ∧ t_shape x = [10; 16]
  | Linear_call _ x => t_shape x = [10; 16]
  | CrossEntropyLoss_call _ logits y =>
      t_shape logits = [10; 2] ∧ t_shape y = [10] ∧ t_data y = SInt <$> y_list
  | _ => True
  end.

(** The calls that run the model or the loss. *)
Definition training_call (ev : Event) : bool :=
  match projT2 ev with
  | GCNConv_call _ _ _ | Linear_call _ _ | CrossEntropyLoss_call _ _ _ => true
  | _ => false
  end.

Definition is_loss_call (ev : Event) : bool :=
  match projT2 ev with
  | CrossEntropyLoss_call _ _ _ => true
  | _ => false
  end.

(** The globals as the cells before the training cell leave them: a graph
    of ten nodes whose ['nfeat'] has shape (10, 16), the label tensor made
    from [y_list], and a classifier with 16-wide GCN layers and a 2-wide
    output layer. *)
Definition ready (ns : Globals) : Prop :=
  num_nodes (nb_g ns) = 10 ∧
  (∃ feat, node_feat (nb_g ns) !! "nfeat" = Some feat ∧ t_shape feat = [10; 16]) ∧
  t_shape (nb_y ns) = [10] ∧ t_data (nb_y ns) = SInt <$> y_list ∧
  Forall (built_conv 16) (gcns (nb_gcn ns)) ∧ built_linear 2 (output (nb_gcn ns)).

(** *** What the notebook relies on from the libraries *)

Definition product (dims : list Z) : Z := foldr Z.mul 1 dims.

(** numpy: [randn] of non-negative dimensions returns a float64 array of
    that shape, [astype] a copy of the same shape with the requested element
    type; both arrays hold one element per index. *)
Record numpy_contract : Prop := {
  randn_returns : ∀ dims w, Forall (λ n, 0 ≤ n) dims →
    ∃ a w', handle (np_random_randn dims) w = (inr a, w');
  randn_array : ∀ dims w a w', handle (np_random_randn dims) w = (inr a, w') →
    dtype a = "float64" ∧ shape a = dims ∧ len (data a) = product dims;
  astype_returns : ∀ a w, ∃ b w', handle (np_astype a "float32") w = (inr b, w');
  astype_array : ∀ a dt w b w', handle (np_astype a dt) w = (inr b, w') →
    dtype b = dt ∧ shape b = shape a ∧ len (data b) = len (data a)
}.

(** Layer constructors accept positive sizes. *)
Record layers_constructible : Prop := {
  GCNConv_new_returns : ∀ i o act nm w, 0 < i → 0 < o →
    ∃ m w', handle (GCNConv_new i o act nm) w = (inr m, w');
  Linear_new_returns : ∀ i o w, 0 < i → 0 < o →
    ∃ l w', handle (Linear_new i o) w = (inr l, w')
}.

(** A linear layer built with [out_features = o] maps [..., in] to [..., o]. *)
Definition linear_shape : Prop :=
  ∀ i o w l w1, handle (Linear_new i o) w = (inr l, w1) →
  ∀ x w2 y w3, handle (Linear_call l x) w2 = (inr y, w3) →
    t_shape y = removelast (t_shape x) ++ [o].

(** A GCN layer built with [output_size = o] returns one row of [o] entries
    per node of the graph. *)
Definition gcnconv_shape : Prop :=
  ∀ i o act nm w m w1, handle (GCNConv_new i o act nm) w = (inr m, w1) →
  ∀ g x w2 y w3, handle (GCNConv_call m g x) w2 = (inr y, w3) →
    t_shape y = [num_nodes g; o].

(** [g.tensor()] keeps the node count and the edges and turns every feature
    array into a tensor of the same element type, shape and contents. *)
Definition same_array (a : ndarray) (t : Tensor) : Prop :=
  t_dtype t = dtype a ∧ t_shape t = shape a ∧ t_data t = data a.

Definition graph_tensor_contract : Prop :=
  ∀ g w g' w', handle (Graph_tensor g) w = (inr g', w') →
    num_nodes g' = num_nodes g ∧ edges g' = edges g ∧
    (∀ k a, node_feat g !! k = Some a →
       ∃ t, node_feat g' !! k = Some t ∧ same_array a t) ∧
    (∀ k a, edge_feat g !! k = Some a →
       ∃ t, edge_feat g' !! k = Some t ∧ same_array a t).

(** [paddle.to_tensor] of a list of ints is the one-dimensional int64 tensor
    of those ints. *)
Definition to_tensor_contract : Prop :=
  ∀ l w t w', handle (to_tensor l) w = (inr t, w') →
    t_dtype t = "int64" ∧ t_shape t = [len l] ∧ t_data t = SInt <$> l.

(** The calls of a training iteration that only compute: layer calls, the
    loss, the conversion to numpy, indexing and printing leave the part
    [view] of the library state alone. *)
Definition computes_only {X : Type} (op : LibOp X) : bool :=
  match op with
  | GCNConv_call _ _ _ | Linear_call _ _ | CrossEntropyLoss_call _ _ _
  | Tensor_numpy _ | np_getitem _ _ | print _ => true
  | _ => false
  end.

Definition read_only {V : Type} (view : World → V) : Prop :=
  ∀ X (op : LibOp X) w, computes_only op = true →
    view (handle op w).2 = view w.



End Semantics.

(** ** Reference constructions the notebook is compared with *)

Section Compositions.
Context `{Library}.

(** Kleisli composition of a list of steps, in index order. *)
Definition compose {A : Type} (fs : list (A → Prog A)) (x : A) : Prog A :=
  foldl (λ acc f, acc ≫= f) (Ret x) fs.

(** The same on state transformers. *)
Definition composeD {A : Type} (fs : list (A → World → (Exn + A) * World)) (x : A) :
    World → (Exn + A) * World :=
  foldl (λ acc f, seqD acc f) (retD x) fs.

(** The library operators a classifier is made of, as steps on the running
    feature. *)
Definition layer_steps (self : GCN) (graph : Graph Tensor) : list (Tensor → Prog Tensor) :=
  ((λ m feature, call (GCNConv_call m graph feature)) <$> gcns self)
  ++ [λ feature, call (Linear_call (output self) feature)].

Definition layer_operators (self : GCN) (graph : Graph Tensor) :
    list (Tensor → World → (Exn + Tensor) * World) :=
  ((λ m feature, opD (GCNConv_call m graph feature)) <$> gcns self)
  ++ [λ feature, opD (Linear_call (output self) feature)].

(** The sizes of the layers of the straight-line construction:
    [(input_size, hidden_size)] first, [(hidden_size, hidden_size)] for every
    later index. *)
Definition layer_sizes (input_size hidden_size : Z) (n : nat) : list (Z * Z) :=
  match n with
  | O => []
  | S k => (input_size, hidden_size) :: replicate k (hidden_size, hidden_size)
  end.

Fixpoint construct_layers (sizes : list (Z * Z)) : Prog (list GCNConv) :=
  match sizes with
  | [] => Ret []
  | (i, o) :: rest =>
      m ← call (GCNConv_new i o "relu" true);
      ms ← construct_layers rest;
      Ret (m :: ms)
  end.

(** The straight-line construction of the classifier, without the loop and
    its branch. *)
Definition GCN_init_straight (input_size num_class : Z)
    (num_layers hidden_size : option Z) : Prog GCN :=
  let num_layers := default 2 num_layers in
  let hidden_size := default 16 hidden_size in
  gcns ← construct_layers (layer_sizes input_size hidden_size (Z.to_nat num_layers));
  output ← call (Linear_new hidden_size num_class);
  Ret (mk_GCN num_class num_layers hidden_size gcns output).

(** The calls of one training iteration, given what the library returned:
    the forward pass [fwd], then loss, backward pass, optimizer step,
    gradient clear, and the three calls that print the loss. *)
Definition epoch_calls (ns : Globals) (epoch : Z) (fwd : list Event)
    (logits loss : Tensor) (a : ndarray) (v : Scalar) : list Event :=
  fwd ++
  [ event (CrossEntropyLoss_call (nb_criterion ns) logits (nb_y ns));
    event (Tensor_backward loss);
    event (Adam_step (nb_optim ns));
    event (Adam_clear_grad (nb_optim ns));
    event (Tensor_numpy loss);
    event (np_getitem a 0);
    event (print ("epoch: " +:+ pretty epoch +:+ " | loss: " +:+ format_4f v)) ].

(** Calls on the model or the optimizer, as opposed to numpy and console. *)
Definition model_or_optimizer (ev : Event) : bool :=
  match projT2 ev with
  | GCNConv_new _ _ _ _ | GCNConv_call _ _ _ | Linear_new _ _ | Linear_call _ _
  | CrossEntropyLoss_new | CrossEntropyLoss_call _ _ _
  | Layer_parameters _ | Layer_train _ | Adam_new _ _
  | Tensor_backward _ | Adam_step _ | Adam_clear_grad _ => true
  | _ => false
  end.

(** The loop variables that the body never assigns. *)
Definition same_setup (ns ns' : Globals) : Prop :=
  nb_g ns' = nb_g ns ∧ nb_y ns' = nb_y ns ∧ nb_label ns' = nb_label ns ∧
  nb_gcn ns' = nb_gcn ns ∧ nb_criterion ns' = nb_criterion ns ∧
  nb_optim ns' = nb_optim ns.

(** One completed iteration, as the claims describe it: the forward pass on
    the graph and its ['nfeat'] returned [logits]; the loss of these logits
    against the label tensor returned [loss]; the backward pass ran on that
    [loss], then the optimizer step and the gradient clear; [loss.numpy()]
    returned [a], [a[0]] returned [v], and the line with [v] was printed.
    Each call ran in the library state the call before it left. *)
Definition one_epoch (ns : Globals) (epoch : Z) (it : list Event) : Prop :=
  ∃ feature fwd logits loss a v w1 w2 w3 w4 w5 w6 w7 w8 w9,
    node_feat (nb_g ns) !! "nfeat" = Some feature ∧
    run (GCN_forward (nb_gcn ns) (nb_g ns) feature) w1 = (inr logits, w2, fwd) ∧
    handle (CrossEntropyLoss_call (nb_criterion ns) logits (nb_y ns)) w2 = (inr loss, w3) ∧
    handle (Tensor_backward loss) w3 = (inr (), w4) ∧
    handle (Adam_step (nb_optim ns)) w4 = (inr (), w5) ∧
    handle (Adam_clear_grad (nb_optim ns)) w5 = (inr (), w6) ∧
    handle (Tensor_numpy loss) w6 = (inr a, w7) ∧
    handle (np_getitem a 0) w7 = (inr v, w8) ∧
    handle (print ("epoch: " +:+ pretty epoch +:+ " | loss: " +:+ format_4f v)) w8
      = (inr (), w9) ∧
    it = epoch_calls ns epoch fwd logits loss a v ∧
    List.filter model_or_optimizer it =
      fwd ++ [ event (CrossEntropyLoss_call (nb_criterion ns) logits (nb_y ns));
               event (Tensor_backward loss);
               event (Adam_step (nb_optim ns));
               event (Adam_clear_grad (nb_optim ns)) ].


End Compositions.

(** ** Further notions about the notebook's components *)

Section Further.
Context `{Library}.

(** The layer sizes [sizes] lead from width [a] to width [b]: each layer
    takes the width the one before it produces. *)
Fixpoint chained (a : Z) (sizes : list (Z * Z)) (b : Z) : Prop :=
  match sizes with
  | [] => a = b
  | (i, o) :: rest => i = a ∧ chained o rest b
  end.

(** Constructor calls of layers. *)
Definition is_GCNConv_new (ev : Event) : bool :=
  match projT2 ev with
  | GCNConv_new _ _ _ _ => true
  | _ => false
  end.

Definition is_layer_constructor (ev : Event) : bool :=
  match projT2 ev with
  | GCNConv_new _ _ _ _ | Linear_new _ _ => true
  | _ => false
  end.

(** [GCN.__init__] with its [for] statement removed. *)
Definition GCN_init_without_loop (input_size num_class : Z)
    (num_layers hidden_size : option Z) : Prog GCN :=
  let num_layers := default 2 num_layers in
  let hidden_size := default 16 hidden_size in
  let gcns := [] in
  output ← call (Linear_new hidden_size num_class);
  Ret (mk_GCN num_class num_layers hidden_size gcns output).

(** Calls of a layer on a feature. *)
Definition is_layer_call (ev : Event) : bool :=
  match projT2 ev with
  | GCNConv_call _ _ _ | Linear_call _ _ => true
  | _ => false
  end.

(** The globals with another array bound to [label]. *)
Definition with_label (ns : Globals) (label : ndarray) : Globals :=
  mk_Globals (nb_g ns) (nb_y ns) label (nb_gcn ns) (nb_criterion ns) (nb_optim ns)
    (nb_epoch ns) (nb_logits ns) (nb_loss ns).

(** The outcome of a run with [f] applied to the returned value. *)
Definition map_value {A B : Type} (f : A → B)
    (o : (Exn + A) * World * list Event) : (Exn + B) * World * list Event :=
  match o with
  | (inl e, w, t) => (inl e, w, t)
  | (inr a, w, t) => (inr (f a), w, t)
  end.

End Further.

(** ** A small executable library, used to run the notebook *)

Module Ref.

Record RefWorld : Type := mk_RefWorld {
  generator : Z;          (* state of the random generator *)
  steps : Z;              (* optimizer steps taken *)
  grads : bool;           (* whether gradients are present *)
  console : list string   (* printed lines *)
}.

Record RefConv : Type := mk_RefConv {
  rc_input_size : Z;
  rc_output_size : Z;
  rc_activation : string;
  rc_norm : bool
}.

Record RefLinear : Type := mk_RefLinear {
  rl_in_features : Z;
  rl_out_features : Z
}.

#[export] Instance ref_types : LibTypes := {|
  F := Z;
  World := RefWorld;
  LibExn := string;
  GCNConv := RefConv;
  Linear := RefLinear;
  CrossEntropyLoss := unit;
  Adam := list nat;
  ParamT := nat;
  fmt_4f := λ z, pretty z +:+ ".0000"
|}.

Definition zeros (dims : list Z) : list Scalar :=
  replicate (Z.to_nat (product dims)) (SFloat (0 : Z)).

Definition ref_randn (dims : list Z) (w : RefWorld) : (string + ndarray) * RefWorld :=
  if forallb (λ n, 0 <=? n) dims then
    (inr (mk_ndarray "float64" dims
            (replicate (Z.to_nat (product dims)) (SFloat (generator w)))),
     mk_RefWorld (generator w + 1) (steps w) (grads w) (console w))
  else (inl "ValueError: negative dimensions are not allowed", w).

Definition ref_getitem (a : ndarray) (i : Z) : string + Scalar :=
  match shape a, data a !! Z.to_nat i with
  | [_], Some v => if decide (0 ≤ i) then inr v else inl "IndexError"
  | _, _ => inl "IndexError"
  end.

Definition as_tensor (a : ndarray) : Tensor :=
  mk_Tensor (dtype a) (shape a) (data a).

Definition ref_conv_new (i o : Z) (act : string) (nm : bool) : string + RefConv :=
  if decide (0 < i ∧ 0 < o) then inr (mk_RefConv i o act nm)
  else inl "ValueError: layer sizes must be positive".

Definition ref_conv_call (m : RefConv) (g : Graph Tensor) (x : Tensor) : string + Tensor :=
  if decide (t_shape x = [num_nodes g; rc_input_size m]) then
    inr (mk_Tensor "float32" [num_nodes g; rc_output_size m]
           (zeros [num_nodes g; rc_output_size m]))
  else inl "ValueError: feature shape does not match the layer".

Definition ref_linear_new (i o : Z) : string + RefLinear :=
  if decide (0 < i ∧ 0 < o) then inr (mk_RefLinear i o)
  else inl "ValueError: layer sizes must be positive".

Definition ref_linear_call (l : RefLinear) (x : Tensor) : string + Tensor :=
  if decide (last (t_shape x) = Some (rl_in_features l)) then
    let s := removelast (t_shape x) ++ [rl_out_features l] in
    inr (mk_Tensor "float32" s (zeros s))
  else inl "ValueError: input width does not match in_features".

Definition ref_loss_call (input label : Tensor) : string + Tensor :=
  match t_shape input, t_shape label with
  | [n; _], [n'] =>
      if decide (n = n') then inr (mk_Tensor "float32" [1] [SFloat (0 : Z)])
      else inl "ValueError: one label per row expected"
  | _, _ => inl "ValueError: logits must be a matrix and labels a vector"
  end.

Definition ref_handle (X : Type) (op : LibOp X) (w : RefWorld) : (string + X) * RefWorld :=
  match op in LibOp X return (string + X) * RefWorld with
  | np_random_randn dims => ref_randn dims w
  | np_astype a dt => (inr (mk_ndarray dt (shape a) (data a)), w)
  | np_array l dt => (inr (mk_ndarray dt [len l] (SFloat <$> l)), w)
  | np_getitem a i => (ref_getitem a i, w)
  | Graph_tensor g =>
      (inr (mk_Graph (edges g) (num_nodes g)
              (as_tensor <$> node_feat g) (as_tensor <$> edge_feat g)), w)
  | GCNConv_new i o act nm => (ref_conv_new i o act nm, w)
  | GCNConv_call m g x => (ref_conv_call m g x, w)
  | Linear_new i o => (ref_linear_new i o, w)
  | Linear_call l x => (ref_linear_call l x, w)
  | to_tensor l => (inr (mk_Tensor "int64" [len l] (SInt <$> l)), w)
  | CrossEntropyLoss_new => (inr tt, w)
  | CrossEntropyLoss_call _ input label => (ref_loss_call input label, w)
  | Layer_parameters self => (inr (seq 0 (2 * length (gcns self) + 2)), w)
  | Layer_train _ => (inr tt, w)
  | Adam_new _ ps => (inr ps, w)
  | Tensor_backward _ =>
      (inr tt, mk_RefWorld (generator w) (steps w) true (console w))
  | Adam_step _ =>
      (inr tt, mk_RefWorld (generator w) (steps w + 1) (grads w) (console w))
  | Adam_clear_grad _ =>
      (inr tt, mk_RefWorld (generator w) (steps w) false (console w))
  | Tensor_numpy t => (inr (mk_ndarray (t_dtype t) (t_shape t) (t_data t)), w)
  | print s =>
      (inr tt, mk_RefWorld (generator w) (steps w) (grads w) (console w ++ [s]))
  end.

#[export] Instance ref_library : Library := {| handle := ref_handle |}.

Definition w0 : RefWorld := mk_RefWorld 0 0 false [].

(** The part of the reference state that training changes. *)
Definition training_state (w : RefWorld) : Z * bool := (steps w, grads w).

End Ref.

(** Values of the reference library that the example runs start from. *)
Module RefExamples.
Import Ref.

Definition graph10 : Graph Tensor :=
  mk_Graph edge_list 10 {[ "nfeat" := mk_Tensor "float32" [10; 16] [] ]} ∅.

Definition graph_without_features : Graph Tensor := mk_Graph edge_list 10 ∅ ∅.

Definition gcn2 : GCN :=
  mk_GCN 2 2 16
    [mk_RefConv 16 16 "relu" true; mk_RefConv 16 16 "relu" true]
    (mk_RefLinear 16 2).

Definition labels10 : Tensor := mk_Tensor "int64" [10] (SInt <$> y_list).

(** Three labels for ten nodes: the reference loss rejects them. *)
Definition labels3 : Tensor := mk_Tensor "int64" [3] (SInt <$> [0; 1; 1]).

Definition globals (g : Graph Tensor) (y : Tensor) : Globals :=
  mk_Globals g y (mk_ndarray "float32" [10] []) gcn2 () [] None None None.

End RefExamples.

(** ** Running programs: general facts *)

Section RunFacts.
Context `{Library}.

Lemma bind_unfold {A B : Type} (p : Prog A) (f : A → Prog B) : p ≫= f = bind p f.
Proof. reflexivity. Qed.

Lemma run_bind {A B : Type} (p : Prog A) (f : A → Prog B) (w : World) :
  run (bind p f) w =
  match run p w with
  | (inl e, w', t) => (inl e, w', t)
  | (inr a, w', t) => let '(r, w'', t') := run (f a) w' in (r, w'', t ++ t')
  end.
Proof.
  revert w. induction p as [a|e|X op k IH]; intros w; simpl.
  - destruct (run (f a) w) as [[r w''] t']. reflexivity.
  - reflexivity.
  - destruct (handle op w) as [[e|x] w']; [reflexivity|].
    rewrite IH. destruct (run (k x) w') as [[[e|a] w1] t1]; [reflexivity|].
    destruct (run (f a) w1) as [[r w2] t2]. reflexivity.
Qed.

Lemma run_call {X : Type} (op : LibOp X) (w : World) :
  run (call op) w =
  match handle op w with
  | (inl e, w') => (inl (LibraryError e), w', [event op])
  | (inr x, w') => (inr x, w', [event op])
  end.
Proof. unfold call. simpl. destruct (handle op w) as [[e|x] w']; reflexivity. Qed.

(** A run of [p ≫= f] either stops inside [p] or continues with [f]. *)
Lemma run_bind_inv {A B : Type} (p : Prog A) (f : A → Prog B) w r w' t :
  run (bind p f) w = (r, w', t) →
  (∃ e, run p w = (inl e, w', t) ∧ r = inl e) ∨
  (∃ a w1 t1 t2, run p w = (inr a, w1, t1) ∧ run (f a) w1 = (r, w', t2) ∧
                 t = t1 ++ t2).
Proof.
  rewrite run_bind. destruct (run p w) as [[[e|a] w1] t1].
  - intros [= <- <- <-]. left. eauto.
  - destruct (run (f a) w1) as [[r2 w2] t2] eqn:Hf. intros [= <- <- <-].
    right. exists a, w1, t1, t2. auto.
Qed.

Lemma run_bind_inr {A B : Type} (p : Prog A) (f : A → Prog B) w b w' t :
  run (bind p f) w = (inr b, w', t) →
  ∃ a w1 t1 t2, run p w = (inr a, w1, t1) ∧ run (f a) w1 = (inr b, w', t2) ∧
                t = t1 ++ t2.
Proof.
  intros Hr. apply run_bind_inv in Hr as [(e & _ & [=])|Hr]. exact Hr.
Qed.

Lemma run_bind_ok {A B : Type} (p : Prog A) (f : A → Prog B) w a w1 t1 :
  run p w = (inr a, w1, t1) →
  run (bind p f) w = (let '(r, w'', t') := run (f a) w1 in (r, w'', t1 ++ t')).
Proof. intros Hp. rewrite run_bind, Hp. reflexivity. Qed.

Lemma run_call_inr {X : Type} (op : LibOp X) w x w' t :
  run (call op) w = (inr x, w', t) → handle op w = (inr x, w') ∧ t = [event op].
Proof.
  rewrite run_call. destruct (handle op w) as [[e|x'] w1]; intros [= <- <- <-]; auto.
Qed.

Lemma run_call_inv {X : Type} (op : LibOp X) w r w' t :
  run (call op) w = (r, w', t) →
  t = [event op] ∧
  ((∃ e, handle op w = (inl e, w') ∧ r = inl (LibraryError e)) ∨
   (∃ x, handle op w = (inr x, w') ∧ r = inr x)).
Proof.
  rewrite run_call. destruct (handle op w) as [[e|x] w1]; intros [= <- <- <-];
    split; eauto.
Qed.

Lemma run_call_ok {X : Type} (op : LibOp X) w x w' :
  handle op w = (inr x, w') → run (call op) w = (inr x, w', [event op]).
Proof. intros Hh. rewrite run_call, Hh. reflexivity. Qed.

Lemma same_runs_bind {A B : Type} (p p' : Prog A) (f f' : A → Prog B) :
  same_runs p p' → (∀ a, same_runs (f a) (f' a)) → same_runs (bind p f) (bind p' f').
Proof.
  intros Hp Hf w. rewrite !run_bind, Hp.
  destruct (run p' w) as [[[e|a] w1] t1]; [reflexivity|]. rewrite Hf. reflexivity.
Qed.

Lemma run_bind_assoc {A B C : Type} (p : Prog A) (f : A → Prog B) (g : B → Prog C) w :
  run (bind (bind p f) g) w = run (bind p (λ a, bind (f a) g)) w.
Proof.
  rewrite !run_bind.
  destruct (run p w) as [[[e|a] w1] t1]; [reflexivity|].
  rewrite run_bind.
  destruct (run (f a) w1) as [[[e|b] w2] t2]; [reflexivity|].
  destruct (run (g b) w2) as [[r w3] t3]. rewrite app_assoc. reflexivity.
Qed.

Lemma run_bind_ret {A : Type} (p : Prog A) w : run (bind p Ret) w = run p w.
Proof.
  rewrite run_bind. destruct (run p w) as [[[e|a] w1] t1]; [reflexivity|].
  simpl. rewrite app_nil_r. reflexivity.
Qed.

(** *** Loops *)

(** A completed loop: an invariant of the loop variables is kept, and the
    trace splits into one part per iteration. *)
Lemma run_for_in_inr {A S : Type} (Inv : S → Prop) (P : A → list Event → Prop)
    (body : A → S → Prog S) :
  (∀ x s w s' w' t, Inv s → run (body x s) w = (inr s', w', t) → Inv s' ∧ P x t) →
  ∀ xs s w s' w' t, Inv s → run (for_in xs body s) w = (inr s', w', t) →
    Inv s' ∧ ∃ ts, Forall2 P xs ts ∧ t = concat ts.
Proof.
  intros Hbody xs. induction xs as [|x xs IH]; intros s w s' w' t Hs Hr.
  - simpl in Hr. injection Hr as <- <- <-. split; [done|]. exists []. split; [constructor|done].
  - simpl in Hr. rewrite bind_unfold in Hr.
    apply run_bind_inr in Hr as (s1 & w1 & t1 & t2 & Hb & Hrest & ->).
    destruct (Hbody _ _ _ _ _ _ Hs Hb) as [Hs1 HP].
    destruct (IH _ _ _ _ _ Hs1 Hrest) as [Hs' (ts & Hts & ->)].
    split; [done|]. exists (t1 :: ts). split; [by constructor|done].
Qed.

(** Any run of a loop, completed or not: a property of single calls that
    every iteration guarantees holds for the whole trace. *)
Lemma run_for_in_all {A S : Type} (Inv : S → Prop) (Q : Event → Prop)
    (body : A → S → Prog S) :
  (∀ x s w r w' t, Inv s → run (body x s) w = (r, w', t) →
     Forall Q t ∧ ∀ s', r = inr s' → Inv s') →
  ∀ xs s w r w' t, Inv s → run (for_in xs body s) w = (r, w', t) →
    Forall Q t ∧ ∀ s', r = inr s' → Inv s'.
Proof.
  intros Hbody xs. induction xs as [|x xs IH]; intros s w r w' t Hs Hr.
  - simpl in Hr. injection Hr as <- <- <-. split; [constructor|]. by intros s' [= <-].
  - simpl in Hr. rewrite bind_unfold in Hr.
    apply run_bind_inv in Hr as [(e & Hb & ->)|(s1 & w1 & t1 & t2 & Hb & Hrest & ->)].
    + destruct (Hbody _ _ _ _ _ _ Hs Hb) as [HQ _]. split; [done|]. by intros s' [=].
    + destruct (Hbody _ _ _ _ _ _ Hs Hb) as [HQ Hs1].
      destruct (IH _ _ _ _ _ (Hs1 _ eq_refl) Hrest) as [HQ' Hs'].
      split; [by apply Forall_app|done].
Qed.

End RunFacts.

(** ** The reference library meets the contracts *)

Section RefFacts.
Import Ref.

Lemma product_nonneg (dims : list Z) :
  forallb (λ n, 0 <=? n) dims = true → 0 ≤ product dims.
Proof.
  induction dims as [|n dims IH]; simpl; [lia|].
  intros [Hn Hd]%andb_prop. apply Z.leb_le in Hn. specialize (IH Hd).
  unfold product in IH. apply Z.mul_nonneg_nonneg; done.
Qed.

Lemma ref_numpy_contract : @numpy_contract ref_types ref_library.
Proof.
  split.
  - intros dims w Hd. simpl. unfold ref_randn.
    assert (forallb (λ n, 0 <=? n) dims = true) as ->; [|eauto].
    apply forallb_forall. intros n Hn. apply Z.leb_le.
    rewrite Forall_forall in Hd. apply Hd. by apply list_elem_of_In.
  - intros dims w a w'. simpl. unfold ref_randn.
    destruct (forallb _ dims) eqn:Hd; [|done]. intros [= <- <-]. simpl.
    split_and!; [done..|]. unfold len. rewrite length_replicate.
    apply product_nonneg in Hd. lia.
  - intros a w. simpl. eauto.
  - intros a dt w b w'. simpl. intros [= <- <-]. done.
Qed.

Lemma ref_layers_constructible : @layers_constructible ref_types ref_library.
Proof.
  split.
  - intros i o act nm w Hi Ho. simpl. unfold ref_conv_new.
    rewrite decide_True by done. eauto.
  - intros i o w Hi Ho. simpl. unfold ref_linear_new.
    rewrite decide_True by done. eauto.
Qed.

Lemma ref_linear_shape : @linear_shape ref_types ref_library.
Proof.
  intros i o w l w1. simpl. unfold ref_linear_new. case_decide; [|done].
  intros [= <- <-] x w2 y w3. simpl. unfold ref_linear_call. case_decide; [|done].
  intros [= <- <-]. done.
Qed.

Lemma ref_gcnconv_shape : @gcnconv_shape ref_types ref_library.
Proof.
  intros i o act nm w m w1. simpl. unfold ref_conv_new. case_decide; [|done].
  intros [= <- <-] g x w2 y w3. simpl. unfold ref_conv_call. case_decide; [|done].
  intros [= <- <-]. done.
Qed.

Lemma ref_graph_tensor_contract : @graph_tensor_contract ref_types ref_library.
Proof.
  intros g w g' w'. simpl. intros [= <- <-]. simpl. split_and!; [done..| |].
  - intros k a Hk. exists (as_tensor a). rewrite lookup_fmap, Hk. done.
  - intros k a Hk. exists (as_tensor a). rewrite lookup_fmap, Hk. done.
Qed.

Lemma ref_to_tensor_contract : @to_tensor_contract ref_types ref_library.
Proof. intros l w t w'. simpl. intros [= <- <-]. done. Qed.

Lemma ref_read_only : @read_only ref_types ref_library _ training_state.
Proof.
  intros X op w Hop. destruct op; simpl in Hop; try discriminate; reflexivity.
Qed.

End RefFacts.

(** ** Step 1: the graph *)

Section BuildGraph.
Context `{Library}.

(** A completed run of [build_graph] made exactly four numpy calls and
    packaged their results with the edge list. *)
Lemma build_graph_inr w g w' t :
  run build_graph w = (inr g, w', t) →
  ∃ r feature r' edge_feature w1 w2 w3,
    handle (np_random_randn [num_node; d]) w = (inr r, w1) ∧
    handle (np_astype r "float32") w1 = (inr feature, w2) ∧
    handle (np_random_randn [len edge_list; 1]) w2 = (inr r', w3) ∧
    handle (np_astype r' "float32") w3 = (inr edge_feature, w') ∧
    g = mk_Graph edge_list num_node {[ "nfeat" := feature ]} {[ "efeat" := edge_feature ]} ∧
    t = [event (np_random_randn [num_node; d]); event (np_astype r "float32");
         event (np_random_randn [len edge_list; 1]); event (np_astype r' "float32")].
Proof.
  unfold build_graph. rewrite !bind_unfold. intros Hr.
  apply run_bind_inr in Hr as (r & w1 & t1 & ? & [H1 ->]%run_call_inr & Hr & ->).
  apply run_bind_inr in Hr as (feature & w2 & t2 & ? & [H2 ->]%run_call_inr & Hr & ->).
  apply run_bind_inr in Hr as (r' & w3 & t3 & ? & [H3 ->]%run_call_inr & Hr & ->).
  apply run_bind_inr in Hr as (ef & w4 & t4 & ? & [H4 ->]%run_call_inr & Hr & ->).
  simpl in Hr. injection Hr as <- <- <-.
  exists r, feature, r', ef, w1, w2, w3. done.
Qed.

Lemma build_graph_returns (Hnp : numpy_contract) w :
  ∃ g w' t, run build_graph w = (inr g, w', t).
Proof.
  destruct (randn_returns Hnp [num_node; d] w) as (r & w1 & H1).
  { repeat constructor; done. }
  destruct (astype_returns Hnp r w1) as (feature & w2 & H2).
  destruct (randn_returns Hnp [len edge_list; 1] w2) as (r' & w3 & H3).
  { repeat constructor; done. }
  destruct (astype_returns Hnp r' w3) as (ef & w4 & H4).
  unfold build_graph, mbind, Prog_bind.
  rewrite (run_bind_ok _ _ _ _ _ _ (run_call_ok _ _ _ _ H1)).
  rewrite (run_bind_ok _ _ _ _ _ _ (run_call_ok _ _ _ _ H2)).
  rewrite (run_bind_ok _ _ _ _ _ _ (run_call_ok _ _ _ _ H3)).
  rewrite (run_bind_ok _ _ _ _ _ _ (run_call_ok _ _ _ _ H4)).
  simpl. eauto.
Qed.

(** C3.  Given numpy's contract for [randn] and [astype], [build_graph()]
    returns, and the graph it returns packages the hard-coded edge list with
    the two feature arrays: [num_nodes] is 10, [num_edges] is 14, the length
    of the edge list, ['nfeat'] is a float32 array of shape (10, 16), one row
    of 16 entries per node, and ['efeat'] a float32 array of shape (14, 1),
    one row of one entry per edge. *)
Theorem build_graph_packages (Hnp : numpy_contract) (w : World) :
  ∃ g w' t, run build_graph w = (inr g, w', t) ∧
    edges g = edge_list ∧
    num_nodes g = 10 ∧
    num_edges g = 14 ∧ num_edges g = len edge_list ∧
    (∃ nfeat, node_feat g !! "nfeat" = Some nfeat ∧
       dtype nfeat = "float32" ∧ shape nfeat = [num_nodes g; 16] ∧
       len (data nfeat) = num_nodes g * 16) ∧
    (∃ efeat, edge_feat g !! "efeat" = Some efeat ∧
       dtype efeat = "float32" ∧ shape efeat = [num_edges g; 1] ∧
       len (data efeat) = num_edges g * 1).
Proof.
  destruct (build_graph_returns Hnp w) as (g & w' & t & Hr).
  exists g, w', t. split; [done|].
  apply build_graph_inr in Hr
    as (r & feature & r' & ef & w1 & w2 & w3 & H1 & H2 & H3 & H4 & -> & _).
  apply (randn_array Hnp) in H1 as (_ & Hs1 & Hd1).
  apply (astype_array Hnp) in H2 as (Ht2 & Hs2 & Hd2).
  apply (randn_array Hnp) in H3 as (_ & Hs3 & Hd3).
  apply (astype_array Hnp) in H4 as (Ht4 & Hs4 & Hd4).
  simpl. split_and!; try done.
  - exists feature. rewrite lookup_singleton_eq. split_and!; try done.
    + by rewrite Hs2, Hs1.
    + by rewrite Hd2, Hd1.
  - exists ef. rewrite lookup_singleton_eq. split_and!; try done.
    + by rewrite Hs4, Hs3.
    + by rewrite Hd4, Hd3.
Qed.

(** C8.  Both endpoints of every edge of the hard-coded edge list are node
    indices below the declared [num_node = 10], and these are the edges and
    the node count [build_graph] hands to the graph constructor. *)
Theorem edge_list_endpoints_valid :
  Forall (λ e : Z * Z, (0 ≤ e.1 < 10) ∧ (0 ≤ e.2 < 10)) edge_list ∧
  Forall (valid_edge num_node) edge_list ∧
  ∀ w g w' t, run build_graph w = (inr g, w', t) →
    Forall (valid_edge (num_nodes g)) (edges g).
Proof.
  assert (Forall (valid_edge num_node) edge_list) as Hv.
  { unfold edge_list, valid_edge, num_node. repeat constructor; simpl; lia. }
  split_and!; [exact Hv|exact Hv|].
  intros w g w' t Hr.
  apply build_graph_inr in Hr as (? & ? & ? & ? & ? & ? & ? & _ & _ & _ & _ & -> & _).
  exact Hv.
Qed.

End BuildGraph.

Section BuildGraphRuns.
Import Ref.

Lemma build_graph_packages_witness :
  ∃ g w' t, run build_graph Ref.w0 = (inr g, w', t) ∧
    edges g = edge_list ∧
    num_nodes g = 10 ∧
    num_edges g = 14 ∧ num_edges g = len edge_list ∧
    (∃ nfeat, node_feat g !! "nfeat" = Some nfeat ∧
       dtype nfeat = "float32" ∧ shape nfeat = [num_nodes g; 16] ∧
       len (data nfeat) = num_nodes g * 16) ∧
    (∃ efeat, edge_feat g !! "efeat" = Some efeat ∧
       dtype efeat = "float32" ∧ shape efeat = [num_edges g; 1] ∧
       len (data efeat) = num_edges g * 1).
Proof. exact (build_graph_packages ref_numpy_contract Ref.w0). Defined.

Lemma edge_list_endpoints_valid_witness :
  ∃ g w' t, run build_graph w0 = (inr g, w', t) ∧
    Forall (valid_edge (num_nodes g)) (edges g).
Proof.
  assert (match run build_graph w0 with
          | (inr _, _, _) => true
          | _ => false
          end = true) as Hok by (vm_compute; reflexivity).
  destruct (run (H0 := ref_library) build_graph w0) as [[[e|g] w'] t] eqn:Hr;
    [discriminate|].
  exists g, w', t. split; [reflexivity|].
  exact (proj2 (proj2 (edge_list_endpoints_valid (H0 := ref_library))) w0 g w' t Hr).
Defined.

End BuildGraphRuns.

(** ** Step 2: the classifier *)

Section Classifier.
Context `{Library}.

(** The body of the construction loop of [GCN.__init__]. *)
Local Abbreviation init_body input_size hidden_size :=
  (λ (i : Z) (gcns : list GCNConv),
     if decide (i = 0) then
       m ← call (GCNConv_new input_size hidden_size "relu" true); Ret (gcns ++ [m])
     else
       m ← call (GCNConv_new hidden_size hidden_size "relu" true); Ret (gcns ++ [m])).

(** From index one on, the loop appends hidden-to-hidden layers. *)
Lemma init_loop_later input_size hidden_size (k : nat) :
  ∀ (j : Z) (acc : list GCNConv), 0 < j →
    same_runs (for_in (seqZ j (Z.of_nat k)) (init_body input_size hidden_size) acc)
              (bind (construct_layers (replicate k (hidden_size, hidden_size)))
                    (λ ms, Ret (acc ++ ms))).
Proof.
  induction k as [|k IH]; intros j acc Hj w.
  - simpl. by rewrite app_nil_r.
  - rewrite seqZ_cons by lia. replace (Z.pred (Z.of_nat (S k))) with (Z.of_nat k) by lia.
    cbn [for_in replicate construct_layers]. unfold mbind, Prog_bind.
    rewrite decide_False by lia. simpl.
    destruct (handle (GCNConv_new hidden_size hidden_size "relu" true) w)
      as [[e|m] w1]; [reflexivity|].
    rewrite (IH (Z.succ j) (acc ++ [m])) by lia.
    rewrite run_bind_assoc. rewrite !run_bind.
    destruct (run (construct_layers _) w1) as [[[e|ms] w2] t2]; [reflexivity|].
    simpl. by rewrite <- app_assoc.
Qed.

(** The whole loop builds the layers of [layer_sizes], in order. *)
Lemma init_loop_straight input_size hidden_size (n : Z) :
  same_runs (for_in (range n) (init_body input_size hidden_size) [])
            (construct_layers (layer_sizes input_size hidden_size (Z.to_nat n))).
Proof.
  intros w. unfold range.
  destruct (Z.to_nat n) as [|k] eqn:Hn.
  - assert (n ≤ 0) by lia. rewrite seqZ_nil by lia. reflexivity.
  - rewrite seqZ_cons by lia. replace (Z.pred n) with (Z.of_nat k) by lia.
    change (Z.succ 0) with 1.
    cbn [for_in layer_sizes construct_layers]. unfold mbind, Prog_bind.
    rewrite decide_True by done. simpl.
    destruct (handle (GCNConv_new input_size hidden_size "relu" true) w)
      as [[e|m] w1]; [reflexivity|].
    rewrite (init_loop_later input_size hidden_size k 1 [m]) by lia.
    rewrite !run_bind.
    destruct (run (construct_layers _) w1) as [[[e|ms] w2] t2]; reflexivity.
Qed.

Lemma GCN_init_same_runs input_size num_class num_layers hidden_size :
  same_runs (GCN_init input_size num_class num_layers hidden_size)
            (GCN_init_straight input_size num_class num_layers hidden_size).
Proof.
  unfold GCN_init, GCN_init_straight, mbind, Prog_bind.
  apply same_runs_bind; [apply init_loop_straight|]. intros gcns w. reflexivity.
Qed.

(** What a completed run of [construct_layers] did: one constructor call per
    entry, in order, each returning the layer that was stored. *)
Lemma construct_layers_inr sizes w ms w' t :
  run (construct_layers sizes) w = (inr ms, w', t) →
  Forall2 (λ (io : Z * Z) m, ∃ w1 w2,
             handle (GCNConv_new io.1 io.2 "relu" true) w1 = (inr m, w2)) sizes ms ∧
  t = (λ io : Z * Z, event (GCNConv_new io.1 io.2 "relu" true)) <$> sizes.
Proof.
  revert w ms w' t. induction sizes as [|[i o] sizes IH]; intros w ms w' t Hr.
  - simpl in Hr. injection Hr as <- <- <-. split; [constructor|done].
  - cbn [construct_layers] in Hr. unfold mbind, Prog_bind in Hr.
    apply run_bind_inr in Hr as (m & w1 & t1 & ? & [H1 ->]%run_call_inr & Hr & ->).
    apply run_bind_inr in Hr as (ms' & w2 & t2 & ? & Hrest & Hr & ->).
    simpl in Hr. injection Hr as <- <- <-.
    destruct (IH _ _ _ _ Hrest) as [Hall ->].
    split; [constructor; eauto|]. simpl. by rewrite app_nil_r.
Qed.

Lemma construct_layers_returns (Hc : layers_constructible) sizes w :
  Forall (λ io : Z * Z, 0 < io.1 ∧ 0 < io.2) sizes →
  ∃ ms w' t, run (construct_layers sizes) w = (inr ms, w', t).
Proof.
  revert w. induction sizes as [|[i o] sizes IH]; intros w Hs.
  - simpl. eauto.
  - inversion Hs as [|? ? [Hi Ho] Hs']; subst. simpl in Hi, Ho.
    destruct (GCNConv_new_returns Hc i o "relu" true w Hi Ho) as (m & w1 & Hm).
    destruct (IH w1 Hs') as (ms & w2 & t2 & Hms).
    cbn [construct_layers]. unfold mbind, Prog_bind.
    rewrite (run_bind_ok _ _ _ _ _ _ (run_call_ok _ _ _ _ Hm)).
    rewrite (run_bind_ok _ _ _ _ _ _ Hms). simpl. eauto.
Qed.

(** What a completed run of [GCN.__init__] did. *)
Lemma GCN_init_inr input_size num_class num_layers hidden_size w self w' t :
  run (GCN_init input_size num_class num_layers hidden_size) w = (inr self, w', t) →
  let nl := default 2 num_layers in
  let hs := default 16 hidden_size in
  let sizes := layer_sizes input_size hs (Z.to_nat nl) in
  ∃ ms out w1,
    Forall2 (λ (io : Z * Z) m, ∃ w1 w2,
               handle (GCNConv_new io.1 io.2 "relu" true) w1 = (inr m, w2)) sizes ms ∧
    handle (Linear_new hs num_class) w1 = (inr out, w') ∧
    self = mk_GCN num_class nl hs ms out ∧
    t = ((λ io : Z * Z, event (GCNConv_new io.1 io.2 "relu" true)) <$> sizes)
        ++ [event (Linear_new hs num_class)].
Proof.
  rewrite GCN_init_same_runs. intros Hr. cbv zeta.
  unfold GCN_init_straight, mbind, Prog_bind in Hr.
  apply run_bind_inr in Hr as (ms & w1 & t1 & ? & Hms & Hr & ->).
  apply run_bind_inr in Hr as (out & w2 & t2 & ? & [Hout ->]%run_call_inr & Hr & ->).
  simpl in Hr. injection Hr as <- <- <-.
  apply construct_layers_inr in Hms as [Hall ->].
  exists ms, out, w1. split_and!; done.
Qed.

(** *** [GCN.forward] *)

(** The body of the loop of [GCN.forward]. *)
Local Abbreviation forward_body graph :=
  (λ (m : GCNConv) (feature : Tensor), call (GCNConv_call m graph feature)).

Lemma forward_loop_compose graph (ms : list GCNConv) :
  ∀ acc : Prog Tensor,
    same_runs (bind acc (λ x, for_in ms (forward_body graph) x))
              (foldl (λ acc f, acc ≫= f) acc (forward_body graph <$> ms)).
Proof.
  induction ms as [|m ms IH]; intros acc w.
  - simpl. apply run_bind_ret.
  - cbn [for_in fmap list_fmap foldl]. rewrite <- IH.
    unfold mbind, Prog_bind. by rewrite run_bind_assoc.
Qed.

Lemma GCN_forward_compose self graph feature :
  same_runs (GCN_forward self graph feature) (compose (layer_steps self graph) feature).
Proof.
  unfold GCN_forward, compose, layer_steps. rewrite foldl_app. cbn [foldl].
  unfold mbind at 1 2 3, Prog_bind at 1 2 3.
  apply same_runs_bind.
  - intros w. by rewrite <- forward_loop_compose.
  - intros x w. apply run_bind_ret.
Qed.

(** A completed forward pass called the layers in index order, each on the
    graph and the feature the previous one returned, then the output layer
    on the last feature. *)
Lemma forward_loop_inr graph ms x w x' w' t :
  run (for_in ms (forward_body graph) x) w = (inr x', w', t) →
  ∃ xs, length xs = length ms ∧
        t = zip_with (λ m xi, event (GCNConv_call m graph xi)) ms (x :: xs) ∧
        last (x :: xs) = Some x' ∧
        Forall2 (λ m y, ∃ xi w1 w2, handle (GCNConv_call m graph xi) w1 = (inr y, w2))
                ms xs.
Proof.
  revert x w t. induction ms as [|m ms IH]; intros x w t Hr.
  - simpl in Hr. injection Hr as <- <- <-. exists []. split_and!; done.
  - cbn [for_in] in Hr. unfold mbind, Prog_bind in Hr.
    apply run_bind_inr in Hr as (y & w1 & t1 & t2 & [Hy ->]%run_call_inr & Hr & ->).
    destruct (IH _ _ _ Hr) as (xs & Hlen & -> & Hlast & Hall).
    exists (y :: xs). split_and!.
    + simpl. by rewrite Hlen.
    + done.
    + done.
    + constructor; eauto.
Qed.

Lemma GCN_forward_inr self graph feature w logits w' t :
  run (GCN_forward self graph feature) w = (inr logits, w', t) →
  ∃ xs x' w1,
    length xs = length (gcns self) ∧
    last (feature :: xs) = Some x' ∧
    Forall2 (λ m y, ∃ xi w1 w2, handle (GCNConv_call m graph xi) w1 = (inr y, w2))
            (gcns self) xs ∧
    handle (Linear_call (output self) x') w1 = (inr logits, w') ∧
    t = zip_with (λ m xi, event (GCNConv_call m graph xi)) (gcns self) (feature :: xs)
        ++ [event (Linear_call (output self) x')].
Proof.
  unfold GCN_forward, mbind, Prog_bind. intros Hr.
  apply run_bind_inr in Hr as (x' & w1 & t1 & ? & Hloop & Hr & ->).
  apply run_bind_inr in Hr as (y & w2 & t2 & ? & [Hy ->]%run_call_inr & Hr & ->).
  simpl in Hr. injection Hr as <- <- <-.
  apply forward_loop_inr in Hloop as (xs & Hlen & -> & Hlast & Hall).
  exists xs, x', w1. split_and!; done.
Qed.

End Classifier.

(** ** Claims about the classifier *)

Section ClassifierClaims.
Context `{Library}.

Lemma last_snoc_shape (s : list Z) (o : Z) : last (removelast s ++ [o]) = Some o.
Proof. apply last_snoc. Qed.

(** C1.  [GCN.forward(graph, feature)] is the composition, in index order,
    of the calls of the layers in [self.gcns] (each on the graph and the
    running feature) followed by the call of the linear output layer, and
    makes no other library call; for a classifier built by [GCN.__init__]
    with [num_class] classes, the logits it returns have [num_class]
    columns (given that a linear layer produces [out_features] columns). *)
Theorem GCN_forward_is_composition (Hlin : linear_shape) :
  (∀ self graph feature w,
     run (GCN_forward self graph feature) w =
     run (compose (layer_steps self graph) feature) w) ∧
  (∀ self graph feature w logits w' t,
     run (GCN_forward self graph feature) w = (inr logits, w', t) →
     ∃ xs x', length xs = length (gcns self) ∧ last (feature :: xs) = Some x' ∧
       t = zip_with (λ m xi, event (GCNConv_call m graph xi)) (gcns self) (feature :: xs)
           ++ [event (Linear_call (output self) x')]) ∧
  (∀ input_size num_class num_layers hidden_size w0 self w1 t1,
     run (GCN_init input_size num_class num_layers hidden_size) w0 = (inr self, w1, t1) →
     ∀ graph feature w logits w' t,
       run (GCN_forward self graph feature) w = (inr logits, w', t) →
       last (t_shape logits) = Some num_class).
Proof.
  split_and!.
  - intros self graph feature w. apply GCN_forward_compose.
  - intros self graph feature w logits w' t Hr.
    apply GCN_forward_inr in Hr as (xs & x' & w1 & Hlen & Hlast & _ & _ & ->).
    by exists xs, x'.
  - intros input_size nc nl hs w0 self w1 t1 Hinit graph feature w logits w' t Hr.
    apply GCN_init_inr in Hinit as (ms & out & w2 & _ & Hout & -> & _).
    apply GCN_forward_inr in Hr as (xs & x' & w3 & _ & _ & _ & Hcall & _).
    simpl in Hcall. rewrite (Hlin _ _ _ _ _ Hout _ _ _ _ Hcall).
    apply last_snoc_shape.
Qed.

(** C4.  [GCN(16, 2)], with the default [num_layers], holds exactly two
    [GCNConv] layers in its layer list; the linear output layer is built
    after them and kept apart in [output].  The construction returns whenever
    the library's layer constructors accept positive sizes. *)
Theorem GCN_default_has_two_layers :
  (∀ w self w' t,
     run (GCN_init 16 2 None None) w = (inr self, w', t) →
     length (gcns self) = 2%nat ∧ num_layers self = 2 ∧
     ∃ m0 m1, gcns self = [m0; m1] ∧
       t = [event (GCNConv_new 16 16 "relu" true);
            event (GCNConv_new 16 16 "relu" true);
            event (Linear_new 16 2)]) ∧
  (layers_constructible →
   ∀ w, ∃ self w' t, run (GCN_init 16 2 None None) w = (inr self, w', t)).
Proof.
  split.
  - intros w self w' t Hr.
    apply GCN_init_inr in Hr as (ms & out & w1 & Hall & _ & -> & ->).
    simpl in Hall. change (Z.to_nat 2) with 2%nat in Hall. simpl in Hall.
    inversion Hall as [|? m0 ? ms0 _ Hall0]; subst.
    inversion Hall0 as [|? m1 ? ms1 _ Hall1]; subst.
    inversion Hall1; subst. simpl. split_and!; try done. by exists m0, m1.
  - intros Hc w.
    destruct (construct_layers_returns Hc (layer_sizes 16 16 2) w)
      as (ms & w1 & t1 & Hms).
    { repeat constructor. }
    destruct (Linear_new_returns Hc 16 2 w1) as (out & w2 & Hout); [done..|].
    exists (mk_GCN 2 2 16 ms out), w2,
      (t1 ++ [event (Linear_new 16 2)]).
    rewrite GCN_init_same_runs. unfold GCN_init_straight, mbind, Prog_bind. simpl default.
    change (Z.to_nat 2) with 2%nat.
    rewrite (run_bind_ok _ _ _ _ _ _ Hms).
    rewrite (run_bind_ok _ _ _ _ _ _ (run_call_ok _ _ _ _ Hout)). reflexivity.
Qed.

Lemma den_bind {A B : Type} (p : Prog A) (f : A → Prog B) w :
  den (bind p f) w = seqD (den p) (λ a, den (f a)) w.
Proof.
  unfold den, seqD. rewrite run_bind.
  destruct (run p w) as [[[e|a] w1] t1]; [reflexivity|]. simpl.
  destruct (run (f a) w1) as [[r w2] t2]. reflexivity.
Qed.

Lemma den_call {X : Type} (op : LibOp X) w : den (call op) w = opD op w.
Proof.
  unfold den, opD. rewrite run_call. by destruct (handle op w) as [[e|x] w1].
Qed.

Lemma den_foldl {A : Type} (fs : list (A → Prog A))
    (gs : list (A → World → (Exn + A) * World)) :
  Forall2 (λ f g, ∀ a w, den (f a) w = g a w) fs gs →
  ∀ (acc : Prog A) accD, (∀ w, den acc w = accD w) →
  ∀ w, den (foldl (λ acc f, acc ≫= f) acc fs) w = foldl (λ acc g, seqD acc g) accD gs w.
Proof.
  induction 1 as [|f g fs gs Hfg _ IH]; intros acc accD Hacc w; simpl; [done|].
  apply IH. intros w1. unfold mbind, Prog_bind. rewrite den_bind.
  unfold seqD. rewrite Hacc. destruct (accD w1) as [[e|a] w2]; [done|]. apply Hfg.
Qed.

(** C5.  The notebook adds no algorithm to the library operators: the
    loop-with-branch of [GCN.__init__] runs exactly like the straight-line
    construction (first [GCNConv(input_size, hidden_size)], then
    [GCNConv(hidden_size, hidden_size)] for every later index, all with
    [activation="relu"] and [norm=True], then the linear layer), and what
    [GCN.forward] computes is the plain composition of the library operators
    of its layers followed by the library's linear layer. *)
Theorem GCN_delegates_to_library :
  (∀ input_size num_class num_layers hidden_size w,
     run (GCN_init input_size num_class num_layers hidden_size) w =
     run (GCN_init_straight input_size num_class num_layers hidden_size) w) ∧
  (∀ self graph feature w,
     den (GCN_forward self graph feature) w =
     composeD (layer_operators self graph) feature w).
Proof.
  split.
  - intros. apply GCN_init_same_runs.
  - intros self graph feature w. unfold den at 1. rewrite GCN_forward_compose.
    fold (den (compose (layer_steps self graph) feature) w).
    unfold compose, composeD. apply den_foldl; [|done].
    unfold layer_steps, layer_operators. apply Forall2_app.
    + apply Forall2_fmap, Forall_Forall2_diag, Forall_forall.
      intros m _ a w1. apply den_call.
    + constructor; [|constructor]. intros a w1. apply den_call.
Qed.

(** C9.  The label list has one entry per node (length 10, the node count),
    every entry is 0 or 1, and so every entry is a class index below the
    [num_class] of the classifier [GCN(16, 2)], which is 2. *)
Theorem labels_are_valid_classes :
  length y_list = 10%nat ∧ len y_list = num_node ∧
  Forall (λ c, c = 0 ∨ c = 1) y_list ∧
  Forall (λ c, 0 ≤ c < 2) y_list ∧
  ∀ w self w' t, run (GCN_init 16 2 None None) w = (inr self, w', t) →
    num_class self = 2 ∧ Forall (λ c, 0 ≤ c < num_class self) y_list.
Proof.
  assert (Forall (λ c, 0 ≤ c < 2) y_list) as Hv.
  { unfold y_list. repeat constructor; lia. }
  split_and!; try done.
  - unfold y_list. repeat constructor; lia.
  - intros w self w' t Hr.
    apply GCN_init_inr in Hr as (ms & out & w1 & _ & _ & -> & _). by simpl.
Qed.

End ClassifierClaims.

Section ClassifierRuns.
Import Ref.

Lemma GCN_forward_is_composition_witness :
  ∃ self w1 t1 logits w' t,
    run (GCN_init 16 2 None None) w0 = (inr self, w1, t1) ∧
    run (GCN_forward self (mk_Graph edge_list 10 ∅ ∅)
           (mk_Tensor "float32" [10; 16] [])) w1 = (inr logits, w', t) ∧
    last (t_shape logits) = Some 2.
Proof.
  assert (match run (GCN_init 16 2 None None) w0 with
          | (inr self, w1, _) =>
              match run (GCN_forward self (mk_Graph edge_list 10 ∅ ∅)
                           (mk_Tensor "float32" [10; 16] [])) w1 with
              | (inr _, _, _) => true
              | _ => false
              end
          | _ => false
          end = true) as Hok by (vm_compute; reflexivity).
  destruct (run (H0 := ref_library) (GCN_init 16 2 None None) w0)
    as [[[e|self] w1] t1] eqn:Hinit; [discriminate|].
  destruct (run (H0 := ref_library)
              (GCN_forward self (mk_Graph edge_list 10 ∅ ∅)
                 (mk_Tensor "float32" [10; 16] [])) w1)
    as [[[e|logits] w'] t] eqn:Hfwd; [discriminate|].
  exists self, w1, t1, logits, w', t. split_and!; [reflexivity|exact Hfwd|].
  exact (proj2 (proj2 (GCN_forward_is_composition ref_linear_shape))
           16 2 None None w0 self w1 t1 Hinit _ _ w1 logits w' t Hfwd).
Defined.

Lemma GCN_default_has_two_layers_witness :
  ∃ self w' t, run (GCN_init 16 2 None None) w0 = (inr self, w', t) ∧
    length (gcns self) = 2%nat.
Proof.
  destruct (proj2 (GCN_default_has_two_layers (H0 := ref_library))
              ref_layers_constructible w0) as (self & w' & t & Hr).
  exists self, w', t. split; [exact Hr|].
  exact (proj1 (proj1 (GCN_default_has_two_layers (H0 := ref_library)) _ _ _ _ Hr)).
Defined.

Lemma labels_are_valid_classes_witness :
  ∃ self w' t, run (GCN_init 16 2 None None) w0 = (inr self, w', t) ∧
    Forall (λ c, 0 ≤ c < num_class self) y_list.
Proof.
  assert (match run (GCN_init 16 2 None None) w0 with
          | (inr _, _, _) => true
          | _ => false
          end = true) as Hok by (vm_compute; reflexivity).
  destruct (run (H0 := ref_library) (GCN_init 16 2 None None) w0)
    as [[[e|self] w'] t] eqn:Hinit; [discriminate|].
  exists self, w', t. split; [reflexivity|].
  exact (proj2 (proj2 (proj2 (proj2 (proj2
           (labels_are_valid_classes (H0 := ref_library))))) w0 self w' t Hinit)).
Defined.

End ClassifierRuns.

(** ** Reasoning rules for calls, sequencing and loops *)

Section Rules.
Context `{Library}.

Lemma guarantees_ret {A : Type} (a : A) Q (R : A → Prop) : R a → guarantees (Ret a) Q R.
Proof.
  intros Ha w r w' t [= <- <- <-]. split; [constructor|]. by intros a' [= <-].
Qed.

Lemma guarantees_call {X : Type} (op : LibOp X) (Q : Event → Prop) (R : X → Prop) :
  Q (event op) → (∀ w x w', handle op w = (inr x, w') → R x) →
  guarantees (call op) Q R.
Proof.
  intros HQ HR w r w' t Hr.
  apply run_call_inv in Hr as [-> [(e & _ & ->)|(x & Hx & ->)]].
  - split; [by repeat constructor|]. by intros a [=].
  - split; [by repeat constructor|]. intros a [= <-]. eauto.
Qed.

Lemma guarantees_bind {A B : Type} (p : Prog A) (f : A → Prog B) Q
    (R1 : A → Prop) (R2 : B → Prop) :
  guarantees p Q R1 → (∀ a, R1 a → guarantees (f a) Q R2) →
  guarantees (bind p f) Q R2.
Proof.
  intros Hp Hf w r w' t Hr.
  apply run_bind_inv in Hr as [(e & Hr & ->)|(a & w1 & t1 & t2 & Hr1 & Hr2 & ->)].
  - destruct (Hp _ _ _ _ Hr) as [HQ _]. split; [done|]. by intros a [=].
  - destruct (Hp _ _ _ _ Hr1) as [HQ1 Ha].
    destruct (Hf a (Ha a eq_refl) _ _ _ _ Hr2) as [HQ2 Hb].
    split; [by apply Forall_app|done].
Qed.

Lemma guarantees_weaken {A : Type} (p : Prog A) Q (R R' : A → Prop) :
  guarantees p Q R → (∀ a, R a → R' a) → guarantees p Q R'.
Proof.
  intros Hp HR w r w' t Hr. destruct (Hp _ _ _ _ Hr) as [HQ Ha]. split; [done|]. eauto.
Qed.

Lemma guarantees_for_in {A S : Type} (xs : list A) (body : A → S → Prog S) Q
    (Inv : S → Prop) :
  (∀ x s, x ∈ xs → Inv s → guarantees (body x s) Q Inv) →
  ∀ s, Inv s → guarantees (for_in xs body s) Q Inv.
Proof.
  induction xs as [|x xs IH]; intros Hbody s Hs.
  - by apply guarantees_ret.
  - cbn [for_in]. unfold mbind, Prog_bind.
    apply guarantees_bind with (R1 := Inv).
    + apply Hbody; [by left|done].
    + intros s' Hs'. apply IH; [|done]. intros x' s'' Hx'. apply Hbody. by right.
Qed.

Lemma guarantees_getitem {T : Type} (dict : gmap string T) key Q (R : T → Prop) :
  (∀ v, dict !! key = Some v → R v) → guarantees (getitem dict key) Q R.
Proof.
  intros HR. unfold getitem. destruct (dict !! key) as [v|].
  - apply guarantees_ret. eauto.
  - intros w r w' t [= <- <- <-]. split; [constructor|]. by intros a [=].
Qed.

Lemma library_failure_app e w' t1 t2 :
  library_failure e w' t2 → library_failure e w' (t1 ++ t2).
Proof.
  intros (X & op & w & le & t0 & Hh & -> & ->).
  exists X, op, w, le, (t1 ++ t0). by rewrite app_assoc.
Qed.

Lemma fails_only_ret {A : Type} (a : A) (R : A → Prop) :
  R a → fails_only_in_library (Ret a) R.
Proof. intros Ha w r w' t [= <- <- <-]. done. Qed.

Lemma fails_only_call {X : Type} (op : LibOp X) :
  fails_only_in_library (call op) (λ _, True).
Proof.
  intros w r w' t Hr.
  apply run_call_inv in Hr as [-> [(e & He & ->)|(x & Hx & ->)]]; [|done].
  by exists X, op, w, e, [].
Qed.

Lemma fails_only_bind {A B : Type} (p : Prog A) (f : A → Prog B)
    (R1 : A → Prop) (R2 : B → Prop) :
  fails_only_in_library p R1 → (∀ a, R1 a → fails_only_in_library (f a) R2) →
  fails_only_in_library (bind p f) R2.
Proof.
  intros Hp Hf w r w' t Hr.
  apply run_bind_inv in Hr as [(e & Hr & ->)|(a & w1 & t1 & t2 & Hr1 & Hr2 & ->)].
  - apply (Hp _ _ _ _ Hr).
  - pose proof (Hp _ _ _ _ Hr1) as Ha. simpl in Ha.
    pose proof (Hf a Ha _ _ _ _ Hr2) as Hb.
    destruct r as [e|b]; [by apply library_failure_app|done].
Qed.

Lemma fails_only_weaken {A : Type} (p : Prog A) (R R' : A → Prop) :
  fails_only_in_library p R → (∀ a, R a → R' a) → fails_only_in_library p R'.
Proof.
  intros Hp HR w r w' t Hr. pose proof (Hp _ _ _ _ Hr) as Ha.
  destruct r; [done|eauto].
Qed.

Lemma fails_only_for_in {A S : Type} (xs : list A) (body : A → S → Prog S)
    (Inv : S → Prop) :
  (∀ x s, Inv s → fails_only_in_library (body x s) Inv) →
  ∀ s, Inv s → fails_only_in_library (for_in xs body s) Inv.
Proof.
  intros Hbody. induction xs as [|x xs IH]; intros s Hs.
  - by apply fails_only_ret.
  - cbn [for_in]. unfold mbind, Prog_bind.
    apply fails_only_bind with (R1 := Inv); [by apply Hbody|]. intros s' Hs'. by apply IH.
Qed.

(** Programs without [Raise] fail only where a library raised. *)
Lemma only_calls_fails_only {A : Type} (p : Prog A) :
  only_calls p → fails_only_in_library p (λ _, True).
Proof.
  induction 1 as [a|X op k _ IH]; intros w r w' t Hr.
  - simpl in Hr. by injection Hr as <- <- <-.
  - simpl in Hr. destruct (handle op w) as [[e|x] w1] eqn:Hh.
    + injection Hr as <- <- <-. by exists X, op, w, e, [].
    + destruct (run (k x) w1) as [[r1 w2] t1] eqn:Hk. injection Hr as <- <- <-.
      pose proof (IH x _ _ _ _ Hk) as Hx. destruct r1 as [e|a]; [|done].
      by apply (library_failure_app _ _ [event op]).
Qed.

Lemma only_calls_bind {A B : Type} (p : Prog A) (f : A → Prog B) :
  only_calls p → (∀ a, only_calls (f a)) → only_calls (bind p f).
Proof.
  intros Hp Hf. induction Hp as [a|X op k _ IH]; simpl; [done|].
  constructor. done.
Qed.

Lemma only_calls_call {X : Type} (op : LibOp X) : only_calls (call op).
Proof. constructor. intros x. constructor. Qed.

Lemma only_calls_for_in {A S : Type} (xs : list A) (body : A → S → Prog S) :
  (∀ x s, only_calls (body x s)) → ∀ s, only_calls (for_in xs body s).
Proof.
  intros Hbody. induction xs as [|x xs IH]; intros s; [constructor|].
  cbn [for_in]. unfold mbind, Prog_bind. by apply only_calls_bind.
Qed.

(** A run whose calls all only compute leaves the viewed part of the library
    state as it was. *)
Lemma run_read_only {A V : Type} (view : World → V) (p : Prog A) :
  read_only view →
  ∀ w r w' t, run p w = (r, w', t) →
    Forall (λ ev, computes_only (projT2 ev) = true) t → view w' = view w.
Proof.
  intros Hro. induction p as [a|e|X op k IH]; intros w r w' t Hr Hall.
  - by injection Hr as <- <- <-.
  - by injection Hr as <- <- <-.
  - simpl in Hr. pose proof (Hro X op w) as Hop.
    destruct (handle op w) as [[e|x] w1] eqn:Hh.
    + injection Hr as <- <- <-. inversion Hall; subst. simpl in Hop. auto.
    + destruct (run (k x) w1) as [[r1 w2] t1] eqn:Hk. injection Hr as <- <- <-.
      inversion Hall; subst. rewrite (IH x _ _ _ _ Hk); [|done]. simpl in Hop. auto.
Qed.

End Rules.

(** ** Step 4: the training loop *)

Section Training.
Context `{Library}.

(** What a completed pass through the loop body did. *)
Lemma train_epoch_inr epoch ns w ns' w' t :
  run (train_epoch epoch ns) w = (inr ns', w', t) →
  ∃ feature logits loss a v fwd w1 w2 w3 w4 w5 w6 w7,
    node_feat (nb_g ns) !! "nfeat" = Some feature ∧
    run (GCN_forward (nb_gcn ns) (nb_g ns) feature) w = (inr logits, w1, fwd) ∧
    handle (CrossEntropyLoss_call (nb_criterion ns) logits (nb_y ns)) w1 = (inr loss, w2) ∧
    handle (Tensor_backward loss) w2 = (inr (), w3) ∧
    handle (Adam_step (nb_optim ns)) w3 = (inr (), w4) ∧
    handle (Adam_clear_grad (nb_optim ns)) w4 = (inr (), w5) ∧
    handle (Tensor_numpy loss) w5 = (inr a, w6) ∧
    handle (np_getitem a 0) w6 = (inr v, w7) ∧
    handle (print ("epoch: " +:+ pretty epoch +:+ " | loss: " +:+ format_4f v)) w7
      = (inr (), w') ∧
    ns' = mk_Globals (nb_g ns) (nb_y ns) (nb_label ns) (nb_gcn ns) (nb_criterion ns)
            (nb_optim ns) (Some epoch) (Some logits) (Some loss) ∧
    t = epoch_calls ns epoch fwd logits loss a v.
Proof.
  unfold train_epoch, mbind, Prog_bind, getitem. intros Hr.
  destruct (node_feat (nb_g ns) !! "nfeat") as [feature|] eqn:Hfeat; [|done].
  apply run_bind_inr in Hr as (? & ? & ? & ? & [= <- <- <-] & Hr & ->).
  apply run_bind_inr in Hr as (logits & w1 & fwd & ? & Hfwd & Hr & ->).
  apply run_bind_inr in Hr as (loss & w2 & ? & ? & [Hloss ->]%run_call_inr & Hr & ->).
  apply run_bind_inr in Hr as ([] & w3 & ? & ? & [Hback ->]%run_call_inr & Hr & ->).
  apply run_bind_inr in Hr as ([] & w4 & ? & ? & [Hstep ->]%run_call_inr & Hr & ->).
  apply run_bind_inr in Hr as ([] & w5 & ? & ? & [Hclear ->]%run_call_inr & Hr & ->).
  apply run_bind_inr in Hr as (a & w6 & ? & ? & [Hnumpy ->]%run_call_inr & Hr & ->).
  apply run_bind_inr in Hr as (v & w7 & ? & ? & [Hitem ->]%run_call_inr & Hr & ->).
  apply run_bind_inr in Hr as ([] & w8 & ? & ? & [Hprint ->]%run_call_inr & Hr & ->).
  simpl in Hr. injection Hr as <- <- <-.
  exists feature, logits, loss, a, v, fwd, w1, w2, w3, w4, w5, w6, w7.
  split_and!; done.
Qed.

(** The forward pass makes model calls only, and calls that only compute. *)
Lemma GCN_forward_calls self graph feature w r w' t :
  run (GCN_forward self graph feature) w = (r, w', t) →
  Forall (λ ev, model_or_optimizer ev = true ∧ computes_only (projT2 ev) = true) t.
Proof.
  assert (guarantees (GCN_forward self graph feature)
            (λ ev, model_or_optimizer ev = true ∧ computes_only (projT2 ev) = true)
            (λ _, True)) as Hg; [|intros Hr; apply (Hg _ _ _ _ Hr)].
  unfold GCN_forward, mbind, Prog_bind.
  apply guarantees_bind with (R1 := λ _, True).
  - apply guarantees_for_in; [|done]. intros m x _ _. by apply guarantees_call.
  - intros x _. apply guarantees_bind with (R1 := λ _, True).
    + by apply guarantees_call.
    + intros logits _. by apply guarantees_ret.
Qed.

Lemma filter_all {A : Type} (f : A → bool) (l : list A) :
  Forall (λ x, f x = true) l → List.filter f l = l.
Proof. induction 1 as [|x l Hx _ IH]; simpl; [done|]. by rewrite Hx, IH. Qed.

Lemma filter_none {A : Type} (f : A → bool) (l : list A) :
  Forall (λ x, f x = false) l → List.filter f l = [].
Proof. induction 1 as [|x l Hx _ IH]; simpl; [done|]. by rewrite Hx, IH. Qed.

Lemma train_epoch_one_epoch ns0 epoch ns w ns' w' t :
  same_setup ns0 ns →
  run (train_epoch epoch ns) w = (inr ns', w', t) →
  same_setup ns0 ns' ∧ one_epoch ns0 epoch t.
Proof.
  intros (Hg & Hy & Hl & Hgcn & Hc & Ho) Hr.
  apply train_epoch_inr in Hr
    as (feature & logits & loss & a & v & fwd & w1 & w2 & w3 & w4 & w5 & w6 & w7 &
        Hfeat & Hfwd & Hloss & Hback & Hstep & Hclear & Hnumpy & Hitem & Hprint &
        -> & ->).
  split; [done|].
  exists feature, fwd, logits, loss, a, v, w, w1, w2, w3, w4, w5, w6, w7, w'.
  rewrite Hg, Hgcn, Hc, Hy, Ho in *. split_and!; try done.
  - unfold epoch_calls. by rewrite Hc, Hy, Ho.
  - unfold epoch_calls. rewrite List.filter_app, filter_all.
    + by rewrite Hc, Hy, Ho.
    + eapply Forall_impl; [apply (GCN_forward_calls _ _ _ _ _ _ _ Hfwd)|].
      by intros ev [? _].
Qed.

(** C2.  A completed run of the training cell went through the loop body
    exactly 30 times, once for each epoch of [range(30)].  Each iteration
    made, in this order: the forward pass of the model on the graph and its
    ['nfeat'] features, the cross-entropy loss of the logits it returned
    against the label tensor, the backward pass on the loss that call
    returned, the optimizer step and the gradient clear, and then the three
    calls that fetch and print that loss; the forward pass and the four calls
    after it are the only calls on the model or the optimizer. *)
Theorem training_loop_epochs ns w ns' w' t :
  run (training_loop ns) w = (inr ns', w', t) →
  ∃ its : list (list Event),
    length its = 30%nat ∧
    t = event (Layer_train (nb_gcn ns)) :: concat its ∧
    Forall2 (one_epoch ns) (range 30) its.
Proof.
  unfold training_loop, mbind, Prog_bind. intros Hr.
  apply run_bind_inr in Hr as ([] & w1 & ? & t2 & [_ ->]%run_call_inr & Hr & ->).
  apply (run_for_in_inr (same_setup ns) (one_epoch ns)) in Hr
    as [_ (its & Hits & ->)].
  - exists its. split_and!; try done.
    apply Forall2_length in Hits. rewrite <- Hits. reflexivity.
  - intros epoch s w2 s' w3 t3. apply train_epoch_one_epoch.
  - done.
Qed.









(** *** Where failures come from *)

Lemma build_graph_only_calls : only_calls build_graph.
Proof.
  unfold build_graph, mbind, Prog_bind.
  repeat (apply only_calls_bind; [apply only_calls_call|intros ?]). constructor.
Qed.

Lemma GCN_init_only_calls input_size num_class num_layers hidden_size :
  only_calls (GCN_init input_size num_class num_layers hidden_size).
Proof.
  unfold GCN_init, mbind, Prog_bind. apply only_calls_bind.
  - apply only_calls_for_in. intros i gcns.
    destruct (decide (i = 0)); (apply only_calls_bind; [apply only_calls_call|]);
      intros m; constructor.
  - intros gcns. apply only_calls_bind; [apply only_calls_call|]. intros out. constructor.
Qed.

Lemma GCN_forward_only_calls self graph feature :
  only_calls (GCN_forward self graph feature).
Proof.
  unfold GCN_forward, mbind, Prog_bind. apply only_calls_bind.
  - apply only_calls_for_in. intros m x. apply only_calls_call.
  - intros x. apply only_calls_bind; [apply only_calls_call|]. intros y. constructor.
Qed.

Lemma train_epoch_fails_only epoch ns :
  is_Some (node_feat (nb_g ns) !! "nfeat") →
  fails_only_in_library (train_epoch epoch ns)
    (λ ns', is_Some (node_feat (nb_g ns') !! "nfeat")).
Proof.
  intros [feature Hfeat].
  assert (only_calls (train_epoch epoch ns)) as Hoc.
  { unfold train_epoch, mbind, Prog_bind, getitem. rewrite Hfeat. simpl bind at 1.
    apply only_calls_bind; [apply GCN_forward_only_calls|]. intros logits.
    repeat (constructor; intros ?). }
  intros w r w' t Hr. destruct r as [e|ns'].
  - apply (only_calls_fails_only _ Hoc _ _ _ _ Hr).
  - apply train_epoch_inr in Hr
      as (? & ? & ? & ? & ? & ? & ? & ? & ? & ? & ? & ? & ? &
          _ & _ & _ & _ & _ & _ & _ & _ & _ & -> & _).
    simpl. eauto.
Qed.

Lemma training_loop_fails_only ns :
  is_Some (node_feat (nb_g ns) !! "nfeat") →
  fails_only_in_library (training_loop ns) (λ _, True).
Proof.
  intros Hfeat. unfold training_loop, mbind, Prog_bind.
  apply fails_only_bind with (R1 := λ _, True); [apply fails_only_call|]. intros _ _.
  eapply fails_only_weaken.
  - apply (fails_only_for_in _ _ (λ s, is_Some (node_feat (nb_g s) !! "nfeat")));
      [|done].
    intros epoch s Hs. by apply train_epoch_fails_only.
  - done.
Qed.





End Training.

(** ** Node classification over the whole graph *)

Section NodeClassification.
Context `{Library}.

Lemma guarantees_weaken_calls {A : Type} (p : Prog A) (Q Q' : Event → Prop) R :
  guarantees p Q R → (∀ ev, Q ev → Q' ev) → guarantees p Q' R.
Proof.
  intros Hp HQ w r w' t Hr. destruct (Hp _ _ _ _ Hr) as [Ht Ha]. split; [|done].
  eapply Forall_impl; eauto.
Qed.

Lemma no_training_call_ok (ev : Event) :
  training_call ev = false → node_classification_call ev.
Proof. destruct ev as [X op]. by destruct op. Qed.

Lemma no_training_call_no_loss (ev : Event) :
  training_call ev = false → is_loss_call ev = false.
Proof. destruct ev as [X op]. by destruct op. Qed.

Local Abbreviation quiet := (λ ev : Event, training_call ev = false).

Lemma build_graph_guarantees (Hnp : numpy_contract) :
  guarantees build_graph quiet
    (λ g, num_nodes g = 10 ∧
          ∃ a, node_feat g !! "nfeat" = Some a ∧ shape a = [10; 16]).
Proof.
  unfold build_graph, mbind, Prog_bind.
  apply guarantees_bind with (R1 := λ r, shape r = [10; 16]).
  { apply guarantees_call; [done|]. intros w r w' Hr.
    by apply (randn_array Hnp) in Hr as (_ & ? & _). }
  intros r Hr. apply guarantees_bind with (R1 := λ a, shape a = [10; 16]).
  { apply guarantees_call; [done|]. intros w a w' Ha.
    apply (astype_array Hnp) in Ha as (_ & Ha & _). by rewrite Ha. }
  intros feature Hfeature. apply guarantees_bind with (R1 := λ _, True).
  { by apply guarantees_call. }
  intros r' _. apply guarantees_bind with (R1 := λ _, True).
  { by apply guarantees_call. }
  intros edge_feature _. apply guarantees_ret. split; [done|].
  exists feature. simpl. by rewrite lookup_singleton_eq.
Qed.

Lemma GCN_init_guarantees input_size num_class num_layers hidden_size :
  guarantees (GCN_init input_size num_class num_layers hidden_size) quiet
    (λ self, Forall (built_conv (default 16 hidden_size)) (gcns self) ∧
             built_linear num_class (output self)).
Proof.
  unfold GCN_init, mbind, Prog_bind.
  apply guarantees_bind
    with (R1 := λ gcns, Forall (built_conv (default 16 hidden_size)) gcns).
  - apply guarantees_for_in; [|constructor]. intros i gcns _ Hgcns.
    destruct (decide (i = 0)).
    + apply guarantees_bind with (R1 := built_conv (default 16 hidden_size)).
      * apply guarantees_call; [done|]. intros w m w' Hm. by repeat eexists.
      * intros m Hm. apply guarantees_ret. apply Forall_app. by repeat constructor.
    + apply guarantees_bind with (R1 := built_conv (default 16 hidden_size)).
      * apply guarantees_call; [done|]. intros w m w' Hm. by repeat eexists.
      * intros m Hm. apply guarantees_ret. apply Forall_app. by repeat constructor.
  - intros gcns Hgcns. apply guarantees_bind with (R1 := built_linear num_class).
    + apply guarantees_call; [done|]. intros w l w' Hl. by repeat eexists.
    + intros out Hout. by apply guarantees_ret.
Qed.

Lemma prepare_guarantees (Hnp : numpy_contract) (Hgt : graph_tensor_contract)
    (Htt : to_tensor_contract) :
  guarantees prepare quiet ready.
Proof.
  unfold prepare, mbind, Prog_bind.
  eapply guarantees_bind; [apply (build_graph_guarantees Hnp)|].
  intros g (Hn & a & Ha & Hsa).
  apply guarantees_bind with (R1 := λ _, True).
  { unfold print_graph_info, mbind, Prog_bind.
    apply guarantees_bind with (R1 := λ _, True); [by apply guarantees_call|].
    intros _ _. by apply guarantees_call. }
  intros _ _. apply guarantees_bind with (R1 := λ _, True); [by apply guarantees_call|].
  intros label _. unfold training_setup, mbind, Prog_bind.
  apply guarantees_bind
    with (R1 := λ g' : Graph Tensor, num_nodes g' = 10 ∧
            ∃ feat, node_feat g' !! "nfeat" = Some feat ∧ t_shape feat = [10; 16]).
  { apply guarantees_call; [done|]. intros w g' w' Hg'.
    apply Hgt in Hg' as (Hn' & _ & Hnf & _). split; [congruence|].
    destruct (Hnf _ _ Ha) as (feat & Hfeat & _ & Hs & _). exists feat. split; [done|].
    congruence. }
  intros g' [Hn' Hfeat]. apply guarantees_bind
    with (R1 := λ y : Tensor, t_shape y = [10] ∧ t_data y = SInt <$> y_list).
  { apply guarantees_call; [done|]. intros w y w' Hy.
    by apply Htt in Hy as (_ & ? & ?). }
  intros y [Hys Hyd]. eapply guarantees_bind; [apply GCN_init_guarantees|].
  intros gcn [Hconvs Hout].
  apply guarantees_bind with (R1 := λ _, True); [by apply guarantees_call|].
  intros criterion _.
  apply guarantees_bind with (R1 := λ _, True); [by apply guarantees_call|].
  intros parameters _.
  apply guarantees_bind with (R1 := λ _, True); [by apply guarantees_call|].
  intros optim _. apply guarantees_ret. by split_and!.
Qed.

(** A forward pass of a classifier with 16-wide GCN layers and a 2-wide
    output layer, on a ten-node graph and features of shape (10, 16). *)
Lemma GCN_forward_guarantees (Hconv : gcnconv_shape) (Hlin : linear_shape)
    self graph feature :
  Forall (built_conv 16) (gcns self) → built_linear 2 (output self) →
  num_nodes graph = 10 → t_shape feature = [10; 16] →
  guarantees (GCN_forward self graph feature) node_classification_call
    (λ logits, t_shape logits = [10; 2]).
Proof.
  intros Hconvs (i & w0 & w0' & Hout) Hn Hfeat.
  unfold GCN_forward, mbind, Prog_bind.
  apply guarantees_bind with (R1 := λ x : Tensor, t_shape x = [10; 16]).
  - apply guarantees_for_in; [|done]. intros m x Hm Hx.
    apply guarantees_call; [done|]. intros w y w' Hy.
    rewrite Forall_forall in Hconvs.
    destruct (Hconvs m Hm) as (i' & act & nm & w1 & w1' & Hnew).
    rewrite (Hconv _ _ _ _ _ _ _ Hnew _ _ _ _ _ Hy). by rewrite Hn.
  - intros x Hx. apply guarantees_bind with (R1 := λ y : Tensor, t_shape y = [10; 2]).
    + apply guarantees_call; [done|]. intros w y w' Hy.
      rewrite (Hlin _ _ _ _ _ Hout _ _ _ _ Hy), Hx. done.
    + intros logits Hl. by apply guarantees_ret.
Qed.

Lemma train_epoch_guarantees (Hconv : gcnconv_shape) (Hlin : linear_shape) epoch ns :
  ready ns → guarantees (train_epoch epoch ns) node_classification_call ready.
Proof.
  intros (Hn & (feat & Hfeat & Hs) & Hys & Hyd & Hconvs & Hout).
  unfold train_epoch, mbind, Prog_bind.
  apply guarantees_bind with (R1 := λ x : Tensor, t_shape x = [10; 16]).
  { apply guarantees_getitem. intros v Hv. congruence. }
  intros feature Hfeature.
  eapply guarantees_bind; [by apply GCN_forward_guarantees|].
  intros logits Hlogits.
  apply guarantees_bind with (R1 := λ _, True); [by apply guarantees_call|].
  intros loss _.
  do 6 (apply guarantees_bind with (R1 := λ _, True);
        [by apply guarantees_call|intros ? _]).
  apply guarantees_ret. unfold ready. simpl. split_and!; eauto.
Qed.

Lemma notebook_guarantees (Hnp : numpy_contract) (Hgt : graph_tensor_contract)
    (Htt : to_tensor_contract) (Hconv : gcnconv_shape) (Hlin : linear_shape) :
  guarantees notebook node_classification_call ready.
Proof.
  unfold notebook, mbind, Prog_bind.
  apply guarantees_bind with (R1 := ready).
  - eapply guarantees_weaken_calls; [by apply prepare_guarantees|].
    apply no_training_call_ok.
  - intros ns Hns. unfold training_loop, mbind, Prog_bind.
    apply guarantees_bind with (R1 := λ _, True); [by apply guarantees_call|].
    intros _ _. apply guarantees_for_in; [|done].
    intros epoch s _ Hs. by apply train_epoch_guarantees.
Qed.

(** Every completed iteration called the loss exactly once. *)
Lemma one_epoch_one_loss ns epoch it :
  one_epoch ns epoch it → length (List.filter is_loss_call it) = 1%nat.
Proof.
  intros (feature & fwd & logits & loss & a & v & w1 & w2 & ? & ? & ? & ? & ? &
          ? & ? & _ & Hfwd & _ & _ & _ & _ & _ & _ & _ & -> & _).
  unfold epoch_calls. rewrite List.filter_app, length_app. simpl.
  apply GCN_forward_inr in Hfwd as (xs & x' & w3 & _ & _ & _ & _ & ->).
  rewrite List.filter_app. simpl. rewrite app_nil_r.
  assert (∀ (ms : list GCNConv) g (ys : list Tensor),
            List.filter is_loss_call
              (zip_with (λ m xi, event (GCNConv_call m g xi)) ms ys) = []) as ->; [|done].
  induction ms as [|m ms IH]; intros g [|y ys]; simpl; auto.
Qed.

Lemma loss_calls_concat (its : list (list Event)) :
  Forall (λ it, length (List.filter is_loss_call it) = 1%nat) its →
  length (List.filter is_loss_call (concat its)) = length its.
Proof.
  induction 1 as [|it its Hit _ IH]; simpl; [done|].
  by rewrite List.filter_app, length_app, Hit, IH.
Qed.

(** C6.  Given the library contracts for array, tensor and layer shapes: in
    every run of the notebook, completed or not, every layer call is on the
    ten-node graph and on features with one row of 16 entries per node (the
    [input_size] of [GCN(16, 2)]), and every loss call gets logits with one
    row per node and [num_class = 2] columns and the label tensor made from
    [y], one class per node.  A completed run called the loss exactly 30
    times, once per epoch. *)
Theorem training_classifies_every_node
    (Hnp : numpy_contract) (Hgt : graph_tensor_contract) (Htt : to_tensor_contract)
    (Hconv : gcnconv_shape) (Hlin : linear_shape) :
  ∀ w r w' t, run notebook w = (r, w', t) →
    Forall node_classification_call t ∧
    (∀ c logits y, event (CrossEntropyLoss_call c logits y) ∈ t →
       t_shape logits = [num_node; 2] ∧ t_shape y = [num_node] ∧
       t_data y = SInt <$> y_list) ∧
    (∀ ns, r = inr ns → length (List.filter is_loss_call t) = 30%nat).
Proof.
  intros w r w' t Hr.
  destruct (notebook_guarantees Hnp Hgt Htt Hconv Hlin _ _ _ _ Hr) as [Hall _].
  split_and!; [done| |].
  - intros c logits y Hin. rewrite Forall_forall in Hall. apply (Hall _ Hin).
  - intros ns ->. unfold notebook, mbind, Prog_bind in Hr.
    apply run_bind_inr in Hr as (ns0 & w1 & t1 & t2 & Hprep & Hloop & ->).
    destruct (prepare_guarantees Hnp Hgt Htt _ _ _ _ Hprep) as [Hquiet _].
    apply training_loop_epochs in Hloop as (its & Hlen & -> & Hits).
    rewrite List.filter_app, length_app. rewrite (filter_none is_loss_call t1).
    + simpl. rewrite loss_calls_concat; [done|].
      apply Forall2_Forall_r with (P := one_epoch ns0) (l := range 30); [done|].
      apply Forall_forall. intros epoch _ it. apply one_epoch_one_loss.
    + eapply Forall_impl; [exact Hquiet|]. apply no_training_call_no_loss.
Qed.

End NodeClassification.

(** ** The notebook run against the reference library *)

Section NotebookRuns.
Import Ref.

Lemma training_loop_epochs_witness :
  ∃ ns w1 t1 ns' w' t,
    run prepare w0 = (inr ns, w1, t1) ∧
    run (training_loop ns) w1 = (inr ns', w', t) ∧
    ∃ its : list (list Event),
      length its = 30%nat ∧
      t = event (Layer_train (nb_gcn ns)) :: concat its ∧
      Forall2 (one_epoch ns) (range 30) its.
Proof.
  assert (match run prepare w0 with
          | (inr ns, w1, _) =>
              match run (training_loop ns) w1 with
              | (inr _, _, _) => true
              | _ => false
              end
          | _ => false
          end = true) as Hok by (vm_compute; reflexivity).
  destruct (run (H0 := ref_library) prepare w0) as [[[e|ns] w1] t1] eqn:Hprep; [discriminate|].
  destruct (run (training_loop ns) w1) as [[[e|ns'] w'] t] eqn:Hloop; [discriminate|].
  exists ns, w1, t1, ns', w', t. split_and!; [reflexivity|exact Hloop|].
  exact (training_loop_epochs ns w1 ns' w' t Hloop).
Defined.

Lemma training_classifies_every_node_witness :
  ∃ ns w' t, run notebook w0 = (inr ns, w', t) ∧
    Forall node_classification_call t ∧
    length (List.filter is_loss_call t) = 30%nat.
Proof.
  assert (match run notebook w0 with
          | (inr _, _, _) => true
          | _ => false
          end = true) as Hok by (vm_compute; reflexivity).
  destruct (run (H0 := ref_library) notebook w0) as [[[e|ns] w'] t] eqn:Hr; [discriminate|].
  exists ns, w', t. split; [reflexivity|].
  destruct (training_classifies_every_node ref_numpy_contract
              ref_graph_tensor_contract ref_to_tensor_contract ref_gcnconv_shape
              ref_linear_shape w0 _ w' t Hr) as (Hall & _ & Hcount).
  split; [exact Hall|]. exact (Hcount ns eq_refl).
Defined.





End NotebookRuns.

(** ** Further properties of the classifier *)

Section ClassifierMore.
Context `{Library}.

Lemma layer_sizes_length input_size hidden_size n :
  length (layer_sizes input_size hidden_size n) = n.
Proof. destruct n as [|k]; simpl; [done|]. by rewrite length_replicate. Qed.

Lemma chained_replicate h k : chained h (replicate k (h, h)) h.
Proof. induction k as [|k IH]; simpl; auto. Qed.

Lemma layer_sizes_chained input_size hidden_size n :
  (0 < n)%nat ∨ input_size = hidden_size →
  chained input_size (layer_sizes input_size hidden_size n) hidden_size.
Proof.
  intros Hn. destruct n as [|k]; simpl.
  - destruct Hn as [Hn| ->]; [lia|done].
  - split; [done|]. apply chained_replicate.
Qed.

(** X1.  [GCN.__init__] with [num_layers <= 0]: the loop body never runs,
    so [__init__] runs like [__init__] with the [for] statement removed.  It
    constructs no [GCNConv]; of the layer constructors it calls [nn.Linear]
    alone (still with [in_features = hidden_size]); the layer list is empty,
    the stored [num_layers] is the argument as given, and [forward] is the
    linear layer applied to the input feature. *)
Theorem GCN_without_layers input_size num_class nl hidden_size (Hnl : nl ≤ 0) :
  (∀ w, run (GCN_init input_size num_class (Some nl) hidden_size) w =
        run (GCN_init_without_loop input_size num_class (Some nl) hidden_size) w) ∧
  (∀ w self w' t,
     run (GCN_init input_size num_class (Some nl) hidden_size) w = (inr self, w', t) →
     gcns self = [] ∧ num_layers self = nl ∧
     List.filter is_GCNConv_new t = [] ∧
     List.filter is_layer_constructor t =
       [event (Linear_new (default 16 hidden_size) num_class)] ∧
     ∀ graph feature w2,
       run (GCN_forward self graph feature) w2 =
       run (call (Linear_call (output self) feature)) w2).
Proof.
  assert (∀ w, run (GCN_init input_size num_class (Some nl) hidden_size) w =
               run (GCN_init_without_loop input_size num_class (Some nl) hidden_size) w)
    as Hsame.
  { intros w. unfold GCN_init, GCN_init_without_loop, range. simpl default.
    rewrite seqZ_nil by lia. reflexivity. }
  split; [exact Hsame|].
  intros w self w' t Hr. rewrite Hsame in Hr.
  unfold GCN_init_without_loop, mbind, Prog_bind in Hr.
  apply run_bind_inr in Hr as (out & w1 & ? & ? & [Hout ->]%run_call_inr & Hr & ->).
  simpl in Hr. injection Hr as <- <- <-. split_and!; done.
Qed.

(** X2.  The layers [GCN.__init__] builds fit together: when it builds at least
    one GCN layer, or when [input_size = hidden_size], the constructor calls
    are those of a list of sizes that starts at [input_size], in which every
    layer takes the width the previous one produces, and that ends at
    [hidden_size], the [in_features] of the linear layer built last; all GCN
    layers are built with [activation="relu"] and [norm=True]. *)
Theorem GCN_init_layers_fit input_size num_class num_layers hidden_size w self w' t :
  0 < default 2 num_layers ∨ input_size = default 16 hidden_size →
  run (GCN_init input_size num_class num_layers hidden_size) w = (inr self, w', t) →
  ∃ sizes : list (Z * Z),
    length sizes = Z.to_nat (default 2 num_layers) ∧
    length (gcns self) = length sizes ∧
    chained input_size sizes (default 16 hidden_size) ∧
    t = ((λ io : Z * Z, event (GCNConv_new io.1 io.2 "relu" true)) <$> sizes)
        ++ [event (Linear_new (default 16 hidden_size) num_class)].
Proof.
  intros Hn Hr.
  apply GCN_init_inr in Hr as (ms & out & w1 & Hall & _ & -> & ->).
  exists (layer_sizes input_size (default 16 hidden_size)
            (Z.to_nat (default 2 num_layers))).
  split_and!.
  - apply layer_sizes_length.
  - simpl. symmetry. by apply Forall2_length in Hall.
  - apply layer_sizes_chained. destruct Hn as [Hn|Hn]; [left; lia|by right].
  - done.
Qed.

Lemma Forall2_last_built {A B : Type} (P : A → B → Prop) (Q : B → Prop)
    (l : list A) (k : list B) (x0 x' : B) :
  Forall2 P l k → l ≠ [] → (∀ a b, a ∈ l → P a b → Q b) →
  last (x0 :: k) = Some x' → Q x'.
Proof.
  intros Hall. revert x0. induction Hall as [|a b l k Hab Hall IH]; intros x0 Hne HQ Hlast.
  - done.
  - destruct k as [|b' k].
    + simpl in Hlast. injection Hlast as <-. apply (HQ a); [by left|done].
    + inversion Hall; subst. apply (IH b); [done| |done].
      intros a' b'' Ha'. apply HQ. by right.
Qed.

(** X3.  The logits of a classifier built by [GCN.__init__] with at least one GCN
    layer have one row per node of the graph and [num_class] columns,
    whatever the shape of the input feature, provided the library's GCN layer
    returns one row of [output_size] entries per node and its linear layer
    replaces the last dimension by [out_features].  Without GCN layers the
    logits keep the leading dimensions of the input. *)
Theorem GCN_logits_shape (Hconv : gcnconv_shape) (Hlin : linear_shape)
    input_size num_class num_layers hidden_size w0 self w1 t1
    graph feature w logits w' t :
  run (GCN_init input_size num_class num_layers hidden_size) w0 = (inr self, w1, t1) →
  run (GCN_forward self graph feature) w = (inr logits, w', t) →
  (0 < default 2 num_layers → t_shape logits = [num_nodes graph; num_class]) ∧
  (default 2 num_layers ≤ 0 →
     t_shape logits = removelast (t_shape feature) ++ [num_class]).
Proof.
  intros Hinit Hfwd.
  apply GCN_init_inr in Hinit as (ms & out & w2 & Hall & Hout & -> & _).
  apply GCN_forward_inr in Hfwd as (xs & x' & w3 & Hlen & Hlast & Hcalls & Hcall & _).
  simpl in *. rewrite (Hlin _ _ _ _ _ Hout _ _ _ _ Hcall).
  split; intros Hn.
  - assert (t_shape x' = [num_nodes graph; default 16 hidden_size]) as ->; [|done].
    apply (Forall2_last_built _ (λ y : Tensor,
             t_shape y = [num_nodes graph; default 16 hidden_size])
             ms xs feature x' Hcalls); [| |exact Hlast].
    + apply Forall2_length in Hall. rewrite layer_sizes_length in Hall.
      intros ->. simpl in Hall. lia.
    + intros m y Hm (xi & w4 & w5 & Hy).
      apply list_elem_of_lookup in Hm as [j Hj].
      destruct (Forall2_lookup_r _ _ _ _ _ Hall Hj) as ([i o] & Hio & w6 & w7 & Hnew).
      simpl in Hnew. rewrite (Hconv _ _ _ _ _ _ _ Hnew _ _ _ _ _ Hy). f_equal. f_equal.
      apply list_elem_of_lookup_2 in Hio.
      destruct (Z.to_nat (default 2 num_layers)) as [|k]; simpl in Hio.
      * by apply elem_of_nil in Hio.
      * apply elem_of_cons in Hio as [[= _ ->]|Hio]; [done|].
        by apply elem_of_replicate in Hio as [[= _ ->] _].
  - apply Forall2_length in Hall. rewrite layer_sizes_length in Hall.
    replace (Z.to_nat (default 2 num_layers)) with 0%nat in Hall by lia.
    destruct ms; [|done]. destruct xs; [|done]. simpl in Hlast. by injection Hlast as <-.
Qed.

Lemma forward_loop_any graph (ms : list GCNConv) x w r w' t :
  run (for_in ms (λ m feature, call (GCNConv_call m graph feature)) x) w = (r, w', t) →
  (length t ≤ length ms)%nat ∧ (∀ a, r = inr a → length t = length ms) ∧
  Forall (λ ev, is_layer_call ev = true ∧ computes_only (projT2 ev) = true) t.
Proof.
  revert x w t. induction ms as [|m ms IH]; intros x w t Hr.
  - simpl in Hr. injection Hr as <- <- <-. simpl. split_and!; [lia|done|constructor].
  - cbn [for_in] in Hr. unfold mbind, Prog_bind in Hr.
    apply run_bind_inv in Hr as [(e & Hc & ->)|(y & w1 & t1 & t2 & Hc & Hr & ->)].
    + apply run_call_inv in Hc as [-> _]. simpl.
      split_and!; [lia|done|by repeat constructor].
    + apply run_call_inv in Hc as [-> _]. destruct (IH _ _ _ Hr) as (Hle & Heq & Hall).
      simpl. split_and!; [lia| |by repeat constructor].
      intros a Ha. by rewrite (Heq a Ha).
Qed.

(** X4.  Any run of [GCN.forward], also one in which a layer raised, makes
    layer calls only, at most one per GCN layer plus one for the output
    layer (exactly that many when it returns), and leaves alone whatever part
    of the library state the computing calls leave alone: the forward pass
    builds nothing and trains nothing. *)
Theorem GCN_forward_any_run self graph feature w r w' t :
  run (GCN_forward self graph feature) w = (r, w', t) →
  (length t ≤ S (length (gcns self)))%nat ∧
  (∀ logits, r = inr logits → length t = S (length (gcns self))) ∧
  Forall (λ ev, is_layer_call ev = true) t ∧
  ∀ (V : Type) (view : World → V), read_only view → view w' = view w.
Proof.
  intros Hr.
  assert ((length t ≤ S (length (gcns self)))%nat ∧
          (∀ logits, r = inr logits → length t = S (length (gcns self))) ∧
          Forall (λ ev, is_layer_call ev = true ∧ computes_only (projT2 ev) = true) t)
    as (Hle & Heq & Hall).
  { unfold GCN_forward, mbind, Prog_bind in Hr.
    apply run_bind_inv in Hr as [(e & Hl & ->)|(x & w1 & t1 & t2 & Hl & Hr & ->)].
    - apply forward_loop_any in Hl as (Hle & _ & Hall). split_and!; [lia|done|done].
    - apply forward_loop_any in Hl as (_ & Heq & Hall). specialize (Heq x eq_refl).
      apply run_bind_inv in Hr as [(e & Hc & ->)|(y & w2 & t3 & t4 & Hc & Hr & ->)].
      + apply run_call_inv in Hc as [-> _]. rewrite length_app, Heq. simpl.
        split_and!; [lia|done|]. apply Forall_app. by repeat constructor.
      + apply run_call_inv in Hc as [-> _]. simpl in Hr. injection Hr as <- <- <-.
        rewrite !length_app, Heq. simpl.
        split_and!; [lia|intros; lia|]. apply Forall_app. by repeat constructor. }
  split_and!; [done|done| |].
  - eapply Forall_impl; [exact Hall|]. by intros ev [? _].
  - intros V view Hro. apply (run_read_only view _ Hro _ _ _ _ Hr).
    eapply Forall_impl; [exact Hall|]. by intros ev [_ ?].
Qed.

End ClassifierMore.

(** ** Further properties of the training cells *)

Section TrainingMore.
Context `{Library}.

Lemma range_take (n : Z) (k : nat) :
  (k ≤ Z.to_nat n)%nat → take k (range n) = range (Z.of_nat k).
Proof.
  intros Hk. unfold range, seqZ. rewrite <- fmap_take, take_seq, Nat2Z.id.
  by rewrite Nat.min_l.
Qed.

Lemma range_lookup (n : Z) (k : nat) (x : Z) :
  range n !! k = Some x → x = Z.of_nat k ∧ (k < Z.to_nat n)%nat.
Proof. unfold range. intros [-> ?]%lookup_seqZ. lia. Qed.

(** A failed loop: some iteration failed after the ones before it had
    completed; the ones after it never ran. *)
Lemma run_for_in_inl {A St : Type} (body : A → St → Prog St) xs s w e w' t :
  run (for_in xs body s) w = (inl e, w', t) →
  ∃ (k : nat) x s1 w1 t1 t2,
    xs !! k = Some x ∧
    run (for_in (take k xs) body s) w = (inr s1, w1, t1) ∧
    run (body x s1) w1 = (inl e, w', t2) ∧ t = t1 ++ t2.
Proof.
  revert s w t. induction xs as [|x xs IH]; intros s w t Hr; [done|].
  cbn [for_in] in Hr. unfold mbind, Prog_bind in Hr.
  apply run_bind_inv in Hr as [(e' & Hb & [= ->])|(s1 & w1 & t1 & t2 & Hb & Hr & ->)].
  - exists 0%nat, x, s, w, [], t. by split_and!.
  - destruct (IH _ _ _ Hr) as (k & x' & s2 & w2 & t3 & t4 & Hk & Hpre & Hfail & ->).
    exists (S k), x', s2, w2, (t1 ++ t3), t4. split_and!; try done.
    + cbn [take for_in]. unfold mbind, Prog_bind.
      rewrite (run_bind_ok _ _ _ _ _ _ Hb), Hpre. done.
    + by rewrite app_assoc.
Qed.

(** X5.  A raising call ends training: when the training cell fails, either
    [gcn.train()] raised, or some epoch [k < 30] failed after the epochs
    [0 .. k-1] had each run in full; no later epoch runs, and the exception
    and the final library state are the failing epoch's. *)
Theorem training_stops_at_failure ns w e w' t :
  run (training_loop ns) w = (inl e, w', t) →
  (t = [event (Layer_train (nb_gcn ns))] ∧
   ∃ le, e = LibraryError le ∧ handle (Layer_train (nb_gcn ns)) w = (inl le, w')) ∨
  (∃ (k : nat) its tfail s wk,
     (k < 30)%nat ∧ length its = k ∧
     Forall2 (one_epoch ns) (range (Z.of_nat k)) its ∧
     same_setup ns s ∧
     run (train_epoch (Z.of_nat k) s) wk = (inl e, w', tfail) ∧
     t = event (Layer_train (nb_gcn ns)) :: concat its ++ tfail).
Proof.
  unfold training_loop, mbind, Prog_bind. intros Hr.
  apply run_bind_inv in Hr as [(e' & Hc & [= ->])|([] & w1 & t1 & t2 & Hc & Hr & ->)].
  - left. apply run_call_inv in Hc as [-> [(le & Hle & [= ->])|(x & _ & [=])]].
    split; [done|]. by exists le.
  - right. apply run_call_inv in Hc as [-> _].
    apply run_for_in_inl in Hr as (k & x & s & wk & t3 & tfail & Hk & Hpre & Hfail & ->).
    apply range_lookup in Hk as [-> Hk]. change (Z.to_nat 30) with 30%nat in Hk.
    rewrite range_take in Hpre by (change (Z.to_nat 30) with 30%nat; lia).
    apply (run_for_in_inr (same_setup ns) (one_epoch ns)) in Hpre
      as [Hs (its & Hits & ->)]; [| |done].
    + exists k, its, tfail, s, wk. split_and!; try done.
      apply Forall2_length in Hits. rewrite <- Hits. unfold range.
      rewrite length_seqZ. lia.
    + intros epoch s0 w2 s' w3 t4. apply train_epoch_one_epoch.
Qed.

(** X6.  A graph without ['nfeat']: the dict subscript raises [KeyError] before
    the iteration makes any library call, so the training cell calls
    [gcn.train()] and nothing else, and no model, loss or optimizer call is
    made. *)
Theorem training_without_nfeat ns :
  node_feat (nb_g ns) !! "nfeat" = None →
  (∀ epoch w, run (train_epoch epoch ns) w = (inl (KeyError "nfeat"), w, [])) ∧
  (∀ w r w' t, run (training_loop ns) w = (r, w', t) →
     t = [event (Layer_train (nb_gcn ns))] ∧
     (r = inl (KeyError "nfeat") ∨ ∃ le, r = inl (LibraryError le))).
Proof.
  intros Hnone.
  assert (∀ epoch w, run (train_epoch epoch ns) w = (inl (KeyError "nfeat"), w, []))
    as Hep.
  { intros epoch w. unfold train_epoch, getitem. rewrite Hnone. reflexivity. }
  split; [exact Hep|].
  intros w r w' t. unfold training_loop, mbind, Prog_bind. rewrite run_bind, run_call.
  destruct (handle (Layer_train (nb_gcn ns)) w) as [[le|[]] w1].
  - intros [= <- <- <-]. split; [done|]. right. by exists le.
  - change (range 30) with (0 :: seqZ 1 29). cbn [for_in]. unfold mbind, Prog_bind.
    rewrite run_bind, Hep. intros [= <- <- <-]. split; [done|]. by left.
Qed.

(** X7.  The cell that prepares training calls, in this order, [g.tensor()],
    [paddle.to_tensor(y)], the constructors of the two GCN layers and of the
    linear layer, [CrossEntropyLoss()], [gcn.parameters()] and [Adam] with
    learning rate 0.01, each in the library state the call before it left;
    the optimizer is built over the parameters of the classifier that the
    cell binds to [gcn]; [g], [y], [criterion] and [optim] are bound to what
    these calls returned, the [label] array is carried along unchanged, and
    [epoch], [logits] and [loss] are not yet bound.  (The trace lists the
    calls of [LibOp]; the container bookkeeping inside [GCN.__init__] is not
    among them, see [GCN_init].) *)
Theorem training_setup_calls g y label w ns w' t :
  run (training_setup g y label) w = (inr ns, w', t) →
  ∃ parameters w1 w2 w3 w4 w5 tg,
    handle (Graph_tensor g) w = (inr (nb_g ns), w1) ∧
    handle (to_tensor y) w1 = (inr (nb_y ns), w2) ∧
    run (GCN_init 16 2 None None) w2 = (inr (nb_gcn ns), w3, tg) ∧
    handle CrossEntropyLoss_new w3 = (inr (nb_criterion ns), w4) ∧
    handle (Layer_parameters (nb_gcn ns)) w4 = (inr parameters, w5) ∧
    handle (Adam_new (QArith_base.Qmake 1 100) parameters) w5 = (inr (nb_optim ns), w') ∧
    length (gcns (nb_gcn ns)) = 2%nat ∧
    List.filter is_layer_constructor tg =
      [ event (GCNConv_new 16 16 "relu" true);
        event (GCNConv_new 16 16 "relu" true);
        event (Linear_new 16 2) ] ∧
    nb_label ns = label ∧
    nb_epoch ns = None ∧ nb_logits ns = None ∧ nb_loss ns = None ∧
    t = [ event (Graph_tensor g); event (to_tensor y) ] ++ tg ++
        [ event CrossEntropyLoss_new;
          event (Layer_parameters (nb_gcn ns));
          event (Adam_new (QArith_base.Qmake 1 100) parameters) ].
Proof.
  unfold training_setup, mbind, Prog_bind. intros Hr.
  apply run_bind_inr in Hr as (g' & w1 & ? & ? & [Hg ->]%run_call_inr & Hr & ->).
  apply run_bind_inr in Hr as (y' & w2 & ? & ? & [Hy ->]%run_call_inr & Hr & ->).
  apply run_bind_inr in Hr as (gcn & w3 & tg & ? & Hgcn & Hr & ->).
  apply run_bind_inr in Hr as (crit & w4 & ? & ? & [Hc ->]%run_call_inr & Hr & ->).
  apply run_bind_inr in Hr as (ps & w5 & ? & ? & [Hp ->]%run_call_inr & Hr & ->).
  apply run_bind_inr in Hr as (opt & w6 & ? & ? & [Ho ->]%run_call_inr & Hr & ->).
  simpl in Hr. injection Hr as <- <- <-.
  pose proof Hgcn as Hinit.
  apply GCN_init_inr in Hinit as (ms & out & w7 & Hall & _ & Hself & Htg).
  simpl in Hall, Htg. change (Z.to_nat 2) with 2%nat in Hall, Htg.
  apply Forall2_length in Hall. simpl in Hall, Htg.
  exists ps, w1, w2, w3, w4, w5, tg. simpl. split_and!; try done.
  - by rewrite Hself.
  - by rewrite Htg.
Qed.

(** *** The unused [label] array *)

Lemma run_bind_map {A B C : Type} (f : B → C) (p : Prog A)
    (k1 : A → Prog B) (k2 : A → Prog C) w :
  (∀ a w1, run (k2 a) w1 = map_value f (run (k1 a) w1)) →
  run (bind p k2) w = map_value f (run (bind p k1) w).
Proof.
  intros Hk. rewrite !run_bind. destruct (run p w) as [[[e|a] w1] t1]; [done|].
  rewrite Hk. destruct (run (k1 a) w1) as [[[e|b] w2] t2]; done.
Qed.

Lemma run_for_in_map {A St : Type} (f : St → St) (body : A → St → Prog St) xs :
  (∀ x s w, run (body x (f s)) w = map_value f (run (body x s) w)) →
  ∀ s w, run (for_in xs body (f s)) w = map_value f (run (for_in xs body s) w).
Proof.
  intros Hbody. induction xs as [|x xs IH]; intros s w; [done|].
  cbn [for_in]. unfold mbind, Prog_bind. rewrite !run_bind, Hbody.
  destruct (run (body x s) w) as [[[e|s1] w1] t1]; [done|]. simpl. rewrite IH.
  destruct (run (for_in xs body s1) w1) as [[[e|s2] w2] t2]; done.
Qed.

Lemma train_epoch_with_label epoch ns label w :
  run (train_epoch epoch (with_label ns label)) w =
  map_value (λ s, with_label s label) (run (train_epoch epoch ns) w).
Proof.
  unfold train_epoch, mbind, Prog_bind. simpl nb_g. simpl nb_gcn. simpl nb_y.
  simpl nb_criterion. simpl nb_optim. simpl nb_label.
  do 9 (apply run_bind_map; intros ? ?). reflexivity.
Qed.

(** X8.  The float32 array [label] of the preprocessing cell plays no part in
    training: with any other array bound to [label], the training cell makes
    the same library calls, ends in the same library state and returns the
    same values, the binding of [label] apart.  The loss is computed against
    the tensor [y]. *)
Theorem training_ignores_label ns label w :
  run (training_loop (with_label ns label)) w =
  map_value (λ s, with_label s label) (run (training_loop ns) w).
Proof.
  unfold training_loop, mbind, Prog_bind. simpl nb_gcn.
  apply run_bind_map. intros [] w1.
  apply (run_for_in_map (λ s, with_label s label)).
  intros epoch s w2. apply train_epoch_with_label.
Qed.

(** *** The state after the loop *)

Lemma run_for_in_snoc {A St : Type} (body : A → St → Prog St) xs x s w s' w' t :
  run (for_in (xs ++ [x]) body s) w = (inr s', w', t) →
  ∃ s1 w1 t1 t2,
    run (for_in xs body s) w = (inr s1, w1, t1) ∧
    run (body x s1) w1 = (inr s', w', t2) ∧ t = t1 ++ t2.
Proof.
  revert s w t. induction xs as [|x0 xs IH]; intros s w t Hr.
  - cbn [app for_in] in Hr. unfold mbind, Prog_bind in Hr.
    apply run_bind_inr in Hr as (s1 & w1 & t1 & t2 & Hb & [= <- <- <-] & ->).
    exists s, w, [], t1. rewrite app_nil_r. done.
  - cbn [app for_in] in Hr. unfold mbind, Prog_bind in Hr.
    apply run_bind_inr in Hr as (s1 & w1 & t1 & t2 & Hb & Hr & ->).
    destruct (IH _ _ _ Hr) as (s2 & w2 & t3 & t4 & Hpre & Hlast & ->).
    exists s2, w2, (t1 ++ t3), t4. split_and!; [|done|by rewrite app_assoc].
    cbn [for_in]. unfold mbind, Prog_bind.
    rewrite (run_bind_ok _ _ _ _ _ _ Hb), Hpre. done.
Qed.

(** X9.  After a completed training cell the loop variables keep the values of
    the last iteration: [epoch] is 29, [logits] is what the last forward
    pass returned and [loss] what the loss returned for these logits and the
    label tensor. *)
Theorem training_loop_final_values ns w ns' w' t :
  run (training_loop ns) w = (inr ns', w', t) →
  nb_epoch ns' = Some 29 ∧
  ∃ feature logits loss w1 w2 w3 fwd,
    nb_logits ns' = Some logits ∧ nb_loss ns' = Some loss ∧
    node_feat (nb_g ns) !! "nfeat" = Some feature ∧
    run (GCN_forward (nb_gcn ns) (nb_g ns) feature) w1 = (inr logits, w2, fwd) ∧
    handle (CrossEntropyLoss_call (nb_criterion ns) logits (nb_y ns)) w2 = (inr loss, w3).
Proof.
  unfold training_loop, mbind, Prog_bind. intros Hr.
  apply run_bind_inr in Hr as ([] & w1 & ? & t2 & _ & Hr & ->).
  change (range 30) with (range 29 ++ [29]) in Hr.
  apply run_for_in_snoc in Hr as (s1 & w2 & t3 & t4 & Hpre & Hlast & ->).
  apply (run_for_in_inr (same_setup ns) (one_epoch ns)) in Hpre as [Hs _]; [| |done].
  - destruct Hs as (Hg & Hy & _ & Hgcn & Hc & _).
    apply train_epoch_inr in Hlast
      as (feature & logits & loss & a & v & fwd & w3 & w4 & w5 & w6 & w7 & w8 & w9 &
          Hfeat & Hfwd & Hloss & _ & _ & _ & _ & _ & _ & -> & _).
    simpl. split; [done|].
    exists feature, logits, loss, w2, w3, w4, fwd.
    rewrite Hg, Hgcn in *. rewrite Hc, Hy in Hloss. done.
  - intros epoch s0 w3 s' w4 t5. apply train_epoch_one_epoch.
Qed.

(** *** The notebook as a whole *)

Lemma fails_only_call_post {X : Type} (op : LibOp X) :
  fails_only_in_library (call op) (λ x, ∃ w w', handle op w = (inr x, w')).
Proof.
  intros w r w' t Hr.
  apply run_call_inv in Hr as [-> [(e & He & ->)|(x & Hx & ->)]]; [|eauto].
  by exists X, op, w, e, [].
Qed.

(** X10.  Given that [g.tensor()] keeps the node features, the notebook as a
    whole fails only where a library raised: the subscript
    [g.node_feat['nfeat']] finds its key in every epoch, so no [KeyError]
    can come out of the notebook's own code. *)
Theorem notebook_fails_only_in_library (Hgt : graph_tensor_contract) :
  fails_only_in_library notebook (λ _, True) ∧
  ∀ w key w' t, run notebook w ≠ (inl (KeyError key), w', t).
Proof.
  assert (fails_only_in_library notebook (λ _, True)) as Hf.
  { unfold notebook, mbind, Prog_bind.
    apply fails_only_bind
      with (R1 := λ ns, is_Some (node_feat (nb_g ns) !! "nfeat"));
      [|intros ns Hns; by apply training_loop_fails_only].
    unfold prepare, mbind, Prog_bind.
    apply fails_only_bind
      with (R1 := λ g : Graph ndarray, is_Some (node_feat g !! "nfeat")).
    { intros w r w' t Hr. destruct r as [e|g].
      - apply (only_calls_fails_only _ build_graph_only_calls _ _ _ _ Hr).
      - apply build_graph_inr in Hr
          as (? & feature & ? & ? & ? & ? & ? & _ & _ & _ & _ & -> & _).
        simpl. rewrite lookup_singleton_eq. eauto. }
    intros g [a Ha].
    apply fails_only_bind with (R1 := λ _, True).
    { apply only_calls_fails_only. unfold print_graph_info, mbind, Prog_bind.
      apply only_calls_bind; [apply only_calls_call|]. intros _. apply only_calls_call. }
    intros _ _. apply fails_only_bind with (R1 := λ _, True); [apply fails_only_call|].
    intros label _. unfold training_setup, mbind, Prog_bind.
    apply fails_only_bind
      with (R1 := λ g' : Graph Tensor, is_Some (node_feat g' !! "nfeat")).
    { eapply fails_only_weaken; [apply fails_only_call_post|].
      intros g' (w1 & w2 & Hg'). apply Hgt in Hg' as (_ & _ & Hnf & _).
      destruct (Hnf _ _ Ha) as (feat & Hfeat & _). eauto. }
    intros g' Hg'.
    apply fails_only_bind with (R1 := λ _, True); [apply fails_only_call|].
    intros y _. apply fails_only_bind with (R1 := λ _, True).
    { apply only_calls_fails_only, GCN_init_only_calls. }
    intros gcn _.
    do 3 (apply fails_only_bind with (R1 := λ _, True);
          [apply fails_only_call|intros ? _]).
    by apply fails_only_ret. }
  split; [exact Hf|].
  intros w key w' t Hr. specialize (Hf _ _ _ _ Hr).
  by destruct Hf as (X & op & w1 & le & t0 & _ & ? & _).
Qed.

End TrainingMore.

(** ** Example runs for the further properties *)

Section MoreRuns.
Import Ref RefExamples.

Lemma GCN_without_layers_witness :
  ∃ self w' t,
    run (GCN_init 8 2 (Some 0) None) w0 = (inr self, w', t) ∧
    gcns self = [] ∧ num_layers self = 0 ∧
    List.filter is_layer_constructor t = [event (Linear_new 16 2)].
Proof.
  assert (match run (GCN_init 8 2 (Some 0) None) w0 with
          | (inr _, _, _) => true
          | _ => false
          end = true) as Hok by (vm_compute; reflexivity).
  destruct (run (H0 := ref_library) (GCN_init 8 2 (Some 0) None) w0)
    as [[[e|self] w'] t] eqn:Hr; [discriminate|].
  exists self, w', t. split; [reflexivity|].
  destruct (proj2 (GCN_without_layers (H0 := ref_library) 8 2 0 None ltac:(lia))
              w0 self w' t Hr) as (Hg & Hn & _ & Ht & _).
  split_and!; assumption.
Defined.

Lemma GCN_init_layers_fit_witness :
  ∃ self w' t sizes,
    run (GCN_init 8 3 (Some 3) (Some 4)) w0 = (inr self, w', t) ∧
    length sizes = 3%nat ∧ length (gcns self) = length sizes ∧
    chained 8 sizes 4.
Proof.
  assert (match run (GCN_init 8 3 (Some 3) (Some 4)) w0 with
          | (inr _, _, _) => true
          | _ => false
          end = true) as Hok by (vm_compute; reflexivity).
  destruct (run (H0 := ref_library) (GCN_init 8 3 (Some 3) (Some 4)) w0)
    as [[[e|self] w'] t] eqn:Hr; [discriminate|].
  destruct (GCN_init_layers_fit (H0 := ref_library) 8 3 (Some 3) (Some 4)
              w0 self w' t ltac:(left; simpl; lia) Hr)
    as (sizes & Hlen & Hlen' & Hch & _).
  exists self, w', t, sizes. split_and!; [reflexivity|exact Hlen|exact Hlen'|exact Hch].
Defined.

Lemma GCN_logits_shape_witness :
  ∃ self w1 t1 logits w' t,
    run (GCN_init 8 3 (Some 3) (Some 4)) w0 = (inr self, w1, t1) ∧
    run (GCN_forward self graph_without_features
           (mk_Tensor "float32" [10; 8] [])) w1 = (inr logits, w', t) ∧
    t_shape logits = [10; 3].
Proof.
  assert (match run (GCN_init 8 3 (Some 3) (Some 4)) w0 with
          | (inr self, w1, _) =>
              match run (GCN_forward self graph_without_features
                           (mk_Tensor "float32" [10; 8] [])) w1 with
              | (inr _, _, _) => true
              | _ => false
              end
          | _ => false
          end = true) as Hok by (vm_compute; reflexivity).
  destruct (run (H0 := ref_library) (GCN_init 8 3 (Some 3) (Some 4)) w0)
    as [[[e|self] w1] t1] eqn:Hinit; [discriminate|].
  destruct (run (H0 := ref_library)
              (GCN_forward self graph_without_features
                 (mk_Tensor "float32" [10; 8] [])) w1)
    as [[[e|logits] w'] t] eqn:Hfwd; [discriminate|].
  exists self, w1, t1, logits, w', t. split_and!; [reflexivity|exact Hfwd|].
  exact (proj1 (GCN_logits_shape ref_gcnconv_shape ref_linear_shape
                  8 3 (Some 3) (Some 4) w0 self w1 t1
                  graph_without_features (mk_Tensor "float32" [10; 8] [])
                  w1 logits w' t Hinit Hfwd) ltac:(simpl; lia)).
Defined.

(** A feature of the wrong width: the first layer raises. *)
Lemma GCN_forward_any_run_witness :
  ∃ e w' t,
    run (GCN_forward gcn2 graph_without_features
           (mk_Tensor "float32" [10; 5] [])) w0 = (inl e, w', t) ∧
    (length t ≤ 3)%nat ∧ Forall (λ ev, is_layer_call ev = true) t ∧
    training_state w' = training_state w0.
Proof.
  assert (match run (GCN_forward gcn2 graph_without_features
                       (mk_Tensor "float32" [10; 5] [])) w0 with
          | (inl _, _, _) => true
          | _ => false
          end = true) as Hok by (vm_compute; reflexivity).
  destruct (run (H0 := ref_library)
              (GCN_forward gcn2 graph_without_features
                 (mk_Tensor "float32" [10; 5] [])) w0)
    as [[[e|logits] w'] t] eqn:Hr; [|discriminate].
  exists e, w', t. split; [reflexivity|].
  destruct (GCN_forward_any_run (H0 := ref_library) _ _ _ _ _ _ _ Hr)
    as (Hle & _ & Hall & Hview).
  split_and!; [exact Hle|exact Hall|].
  exact (Hview _ training_state ref_read_only).
Defined.

(** Three labels for ten nodes: the loss raises in the first epoch. *)
Lemma training_stops_at_failure_witness :
  ∃ e w' t,
    run (training_loop (globals graph10 labels3)) w0 = (inl e, w', t) ∧
    ((t = [event (Layer_train gcn2)] ∧
      ∃ le, e = LibraryError le ∧ handle (Layer_train gcn2) w0 = (inl le, w')) ∨
     (∃ (k : nat) its tfail s wk,
        (k < 30)%nat ∧ length its = k ∧
        Forall2 (one_epoch (globals graph10 labels3)) (range (Z.of_nat k)) its ∧
        same_setup (globals graph10 labels3) s ∧
        run (train_epoch (Z.of_nat k) s) wk = (inl e, w', tfail) ∧
        t = event (Layer_train gcn2) :: concat its ++ tfail)).
Proof.
  assert (match run (training_loop (globals graph10 labels3)) w0 with
          | (inl _, _, _) => true
          | _ => false
          end = true) as Hok by (vm_compute; reflexivity).
  destruct (run (H0 := ref_library) (training_loop (globals graph10 labels3)) w0)
    as [[[e|ns'] w'] t] eqn:Hr; [|discriminate].
  exists e, w', t. split; [reflexivity|].
  exact (training_stops_at_failure (H0 := ref_library) _ _ _ _ _ Hr).
Defined.

Lemma training_without_nfeat_witness :
  run (train_epoch 0 (globals graph_without_features labels10)) w0 =
    (inl (KeyError "nfeat"), w0, []).
Proof.
  exact (proj1 (training_without_nfeat (H0 := ref_library)
                  (globals graph_without_features labels10) eq_refl) 0 w0).
Defined.

Lemma training_setup_calls_witness :
  ∃ ns w' t,
    run (training_setup (mk_Graph edge_list 10 ∅ ∅) y_list
           (mk_ndarray "float32" [10] [])) w0 = (inr ns, w', t) ∧
    length (gcns (nb_gcn ns)) = 2%nat ∧
    nb_label ns = mk_ndarray "float32" [10] [] ∧ nb_epoch ns = None.
Proof.
  assert (match run (training_setup (mk_Graph edge_list 10 ∅ ∅) y_list
                       (mk_ndarray "float32" [10] [])) w0 with
          | (inr _, _, _) => true
          | _ => false
          end = true) as Hok by (vm_compute; reflexivity).
  destruct (run (H0 := ref_library)
              (training_setup (mk_Graph edge_list 10 ∅ ∅) y_list
                 (mk_ndarray "float32" [10] [])) w0)
    as [[[e|ns] w'] t] eqn:Hr; [discriminate|].
  exists ns, w', t. split; [reflexivity|].
  destruct (training_setup_calls (H0 := ref_library) _ _ _ _ _ _ _ Hr)
    as (ps & w1 & w2 & w3 & w4 & w5 & tg & _ & _ & _ & _ & _ & _ & Hlen & _ & Hl & He & _).
  split_and!; [exact Hlen|exact Hl|exact He].
Defined.

Lemma training_loop_final_values_witness :
  ∃ ns' w' t,
    run (training_loop (globals graph10 labels10)) w0 = (inr ns', w', t) ∧
    nb_epoch ns' = Some 29.
Proof.
  assert (match run (training_loop (globals graph10 labels10)) w0 with
          | (inr _, _, _) => true
          | _ => false
          end = true) as Hok by (vm_compute; reflexivity).
  destruct (run (H0 := ref_library) (training_loop (globals graph10 labels10)) w0)
    as [[[e|ns'] w'] t] eqn:Hr; [discriminate|].
  exists ns', w', t. split; [reflexivity|].
  exact (proj1 (training_loop_final_values (H0 := ref_library) _ _ _ _ _ Hr)).
Defined.

Lemma notebook_fails_only_in_library_witness :
  match run notebook w0 with
  | (inl (KeyError _), _, _) => False
  | _ => True
  end.
Proof.
  destruct (run (H0 := ref_library) notebook w0) as [[[[key|le]|ns] w'] t] eqn:Hr;
    [|exact I|exact I].
  exact (proj2 (notebook_fails_only_in_library ref_graph_tensor_contract)
           w0 key w' t Hr).
Defined.

End MoreRuns.
